(** * hapi-api-version: version resolution and request rewriting

    A shallow embedding of [lib/index.js]: the option schema
    [internals.optionsSchema], the [register] function, the media-type
    extractor [_extractVersionFromAcceptHeader] and the [onRequest]
    extension handler, together with the part of their environment that
    they call: JavaScript primitive values and strings, and, from the
    packages the plugin requires, [Joi.validate] on this schema,
    [MediaType.fromString], [Hoek.contain], [Boom.create], and the
    extension chain of hapi. What hapi and Node do with a URL
    ([request.setUrl], [Url.parse], the normalization of paths) and what
    the router answers ([server.match]) are taken as given: they are
    fields of the connection that a request carries and a parameter of
    the handler, and what a property needs of them is among its
    hypotheses.

    Conventions.
    - A JavaScript number is [NaN], an infinity or a finite value, written
      as an integer or as an odd multiple of a negative power of two;
      functions that make numbers round to the nearest double, functions
      that read numbers are exact. [-0] is not told apart from [0]: the
      two are [===], falsy, and print alike.
    - A string is a [string] of code units below 256, one [ascii] each.
    - A function that may raise returns a [completion].
    - Objects that the plugin mutates in place (the per-request slot
      [request.plugins['hapi-api-version']], the per-server slot
      [server.plugins['hapi-api-version']]) are threaded explicitly. *)

From Stdlib Require Import ZArith List String Ascii Bool Lia.
From Stdlib Require Import DecimalString DecimalPos.
Import ListNotations.
Local Open Scope string_scope.
Local Open Scope Z_scope.

(* ================================================================== *)
(** * JavaScript numbers *)
(* ================================================================== *)

(** [Frac n k] is the value [(2n+1) / 2^k]: every finite value that is
    not an integer and is a double has one such form. *)
Inductive jsnum : Type :=
| NaN
| Inf (negative : bool)
| Int (z : Z)
| Frac (n : Z) (k : positive).

(** [2^53]: up to it every integer is a double. *)
Definition two53 : Z := 9007199254740992.

(** [Number.isSafeInteger]. *)
Definition isSafeInteger (n : jsnum) : bool :=
  match n with
  | Int z => Z.abs z <? two53
  | _ => false
  end.

(** [===] on numbers ([NaN] differs from itself). *)
Definition same_number (a b : jsnum) : bool :=
  match a, b with
  | Int x, Int y => x =? y
  | Inf x, Inf y => Bool.eqb x y
  | Frac n k, Frac n' k' => (n =? n') && (k =? k')%positive
  | _, _ => false
  end.

(** The rational [num / den] times [2^(-e)], as a fraction. *)
Definition scale2 (num den e : Z) : Z * Z :=
  if 0 <=? e then (num, den * 2 ^ e) else (num * 2 ^ (- e), den).

(** [floor (log2 (num / den))] for positive [num] and [den]. *)
Definition floor_log2 (num den : Z) : Z :=
  let d := Z.log2 num - Z.log2 den in
  let (a, b) := scale2 num den d in
  if b <=? a then d else d - 1.

(** The integer nearest to [num / den], ties to the even one. *)
Definition round_half_even (num den : Z) : Z :=
  let q := num / den in
  let r2 := 2 * (num mod den) in
  if r2 <? den then q
  else if den <? r2 then q + 1
  else if Z.even q then q else q + 1.

(** The finite value [m * 2^e], [m > 0], in the form of [jsnum]. *)
Definition dyadic (negative : bool) (m e : Z) : jsnum :=
  let sign := if negative then -1 else 1 in
  if 0 <=? e then Int (sign * m * 2 ^ e)
  else
    let g := Z.gcd m (2 ^ (- e)) in
    let m' := m / g in
    let d := 2 ^ (- e) / g in
    if d =? 1 then Int (sign * m')
    else Frac ((sign * m' - 1) / 2) (Z.to_pos (Z.log2 d)).

(** The Number value for the rational [num / den], [num >= 0 < den], with
    the sign [negative]: the nearest double, ties to the even significand,
    an infinity from [2^1024 - 2^970] on. *)
Definition to_double (negative : bool) (num den : Z) : jsnum :=
  if num =? 0 then Int 0
  else
    let e := Z.max (floor_log2 num den - 52) (-1074) in
    let (a, b) := scale2 num den e in
    let m := round_half_even a b in
    if 1024 <=? Z.log2 m + e then Inf negative
    else if m =? 0 then Int 0
    else dyadic negative m e.

(** The Number value for an integer: itself up to [2^53]. *)
Definition Number_of_Z (z : Z) : jsnum :=
  if Z.abs z <=? two53 then Int z else to_double (z <? 0) (Z.abs z) 1.

(** A finite number as a sign and a fraction. *)
Definition fraction (n : jsnum) : option (bool * Z * Z) :=
  match n with
  | Int z => Some (z <? 0, Z.abs z, 1)
  | Frac n k => Some (2 * n + 1 <? 0, Z.abs (2 * n + 1), 2 ^ Z.pos k)
  | _ => None
  end.

(** Decimal digits of a natural number. *)
Definition digits_of (z : Z) : string :=
  NilZero.string_of_uint (N.to_uint (Z.to_N z)).

Fixpoint zeros (n : nat) : string :=
  match n with
  | O => ""
  | S n' => String "0" (zeros n')
  end.

(** The decimal [s * 10^(n - k)] as a fraction. *)
Definition decimal (s n k : Z) : Z * Z :=
  if 0 <=? n - k then (s * 10 ^ (n - k), 1) else (s, 10 ^ (k - n)).

(** The [n] with [10^(n-1) <= num / den < 10^n]. *)
Definition decimal_exponent (num den : Z) : Z :=
  let n0 := (floor_log2 num den * 30103) / 100000 in
  let below n :=
    if 0 <=? n then num <? den * 10 ^ n else num * 10 ^ (- n) <? den in
  if below n0 then (if below (n0 - 1) then n0 - 1 else n0)
  else if below (n0 + 1) then n0 + 1
  else n0 + 2.

(** The shortest digits of [Number::toString]: the least [k], from [k]
    on, with a [k]-digit [s] whose decimal [s * 10^(n-k)] has the Number
    value [x]; of two such [s], the one nearer to [num / den], the even
    one in a tie. *)
Fixpoint shortest (fuel : nat) (x : jsnum) (num den n k : Z) : Z * Z :=
  match fuel with
  | O => (0, k)
  | S fuel' =>
      let (a, b) := if 0 <=? k - n then (num * 10 ^ (k - n), den)
                    else (num, den * 10 ^ (n - k)) in
      let lo := a / b in
      let hi := lo + 1 in
      let ok s := let (p, q) := decimal s n k in
                  same_number (to_double false p q) x in
      let nearer_lo :=
        let r2 := 2 * (a mod b) in
        (r2 <? b) || ((r2 =? b) && Z.even lo) in
      if ok lo && ok hi then (if nearer_lo then (lo, k) else (hi, k))
      else if ok lo then (lo, k)
      else if ok hi then (hi, k)
      else shortest fuel' x num den n (k + 1)
  end.

(** [Number::toString] of the double nearest to a positive [num / den]:
    the digits as they are up to 21 integer digits, with a point inside
    or after zeros down to [1e-6], and the exponent form elsewhere. *)
Definition positive_to_string (num den : Z) : string :=
  let x := to_double false num den in
  match fraction x with
  | None => "Infinity"
  | Some (_, num, den) =>
      let n0 := decimal_exponent num den in
      let (s0, k0) := shortest 17 x num den n0 1 in
      let '(s, k, n) := if s0 =? 10 ^ k0 then (1, 1, n0 + 1) else (s0, k0, n0) in
      let ds := digits_of s in
      if (k <=? n) && (n <=? 21) then ds ++ zeros (Z.to_nat (n - k))
      else if (0 <? n) && (n <=? 21) then
        substring 0 (Z.to_nat n) ds ++ "."
        ++ substring (Z.to_nat n) (Z.to_nat (k - n)) ds
      else if (-6 <? n) && (n <=? 0) then "0." ++ zeros (Z.to_nat (- n)) ++ ds
      else
        let e := n - 1 in
        let es := (if e <? 0 then "-" else "+") ++ digits_of (Z.abs e) in
        if k =? 1 then ds ++ "e" ++ es
        else substring 0 1 ds ++ "." ++ substring 1 (Z.to_nat (k - 1)) ds
             ++ "e" ++ es
  end.

(** [Number::toString]. *)
Definition number_to_string (n : jsnum) : string :=
  match n with
  | NaN => "NaN"
  | Inf false => "Infinity"
  | Inf true => "-Infinity"
  | Int 0 => "0"
  | _ =>
      match fraction n with
      | Some (negative, num, den) =>
          (if negative then "-" else "") ++ positive_to_string num den
      | None => "NaN"
      end
  end.

(** Rendering of an integer, as [Number.prototype.toString]: up to [2^53]
    the decimal digits, which are then the shortest ones. *)
Definition Z_to_string (z : Z) : string :=
  if Z.abs z <=? two53 then NilZero.string_of_int (Z.to_int z)
  else number_to_string (Number_of_Z z).

(* ================================================================== *)
(** * JavaScript values *)
(* ================================================================== *)

(** Primitive values. *)
Inductive jsval : Type :=
| VUndefined
| VNull
| VBool (b : bool)
| VNum (n : jsnum)
| VStr (s : string).

(** Completion of a call: a value, or a raised exception with its
    message. *)
Inductive completion (A : Type) : Type :=
| Normal (a : A)
| Thrown (e : string).

Arguments Normal {A} a.
Arguments Thrown {A} e.

Definition bind {A B : Type} (c : completion A) (k : A -> completion B)
  : completion B :=
  match c with
  | Normal a => k a
  | Thrown e => Thrown e
  end.

Notation "'let*' x ':=' c 'in' k" := (bind c (fun x => k))
  (at level 10, x name, c at level 100, k at level 200).

(** ToBoolean: [undefined], [null], [false], [NaN], [0] and the empty
    string are falsy. *)
Definition truthy (v : jsval) : bool :=
  match v with
  | VUndefined | VNull => false
  | VBool b => b
  | VNum NaN => false
  | VNum (Int z) => negb (z =? 0)
  | VNum _ => true
  | VStr s => negb (s =? "")%string
  end.

(** Strict equality [===] on primitives. *)
Definition strict_eq (a b : jsval) : bool :=
  match a, b with
  | VUndefined, VUndefined => true
  | VNull, VNull => true
  | VBool x, VBool y => Bool.eqb x y
  | VNum x, VNum y => same_number x y
  | VStr x, VStr y => (x =? y)%string
  | _, _ => false
  end.

(** ToString, as applied by [+] to a string and a primitive. *)
Definition to_string (v : jsval) : string :=
  match v with
  | VUndefined => "undefined"
  | VNull => "null"
  | VBool true => "true"
  | VBool false => "false"
  | VNum (Int z) => Z_to_string z
  | VNum n => number_to_string n
  | VStr s => s
  end.
(* ================================================================== *)
(** * JavaScript strings *)
(* ================================================================== *)

Definition code (c : ascii) : N := N_of_ascii c.

Definition is_digit (c : ascii) : bool :=
  ((48 <=? code c) && (code c <=? 57))%N.

Definition is_alpha (c : ascii) : bool :=
  (((65 <=? code c) && (code c <=? 90)) || ((97 <=? code c) && (code c <=? 122)))%N.

Definition is_alnum (c : ascii) : bool := is_alpha c || is_digit c.

(** White space as stripped by [trim] and skipped by [parseInt]: of the
    code units below 256, TAB to CR, the space and the no-break space. *)
Definition is_whitespace (c : ascii) : bool :=
  (((9 <=? code c) && (code c <=? 13)) || (code c =? 32) || (code c =? 160))%N.

(** Line terminators, which [.] in a regular expression does not match. *)
Definition is_line_terminator (c : ascii) : bool :=
  ((code c =? 10) || (code c =? 13))%N.

Definition strlen (s : string) : Z := Z.of_nat (String.length s).

Fixpoint drop (n : nat) (s : string) : string :=
  match n, s with
  | O, _ => s
  | S n', String _ s' => drop n' s'
  | S _, EmptyString => EmptyString
  end.

(** [s.slice(k)]: from index [k] to the end; a negative [k] counts from
    the end of the string. *)
Definition slice (k : Z) (s : string) : string :=
  if k <? 0 then drop (Z.to_nat (Z.max (strlen s + k) 0)) s
  else drop (Z.to_nat k) s.

(** [s.startsWith(p)]. *)
Fixpoint startsWith (s p : string) {struct p} : bool :=
  match p with
  | EmptyString => true
  | String a p' =>
      match s with
      | EmptyString => false
      | String b s' => Ascii.eqb a b && startsWith s' p'
      end
  end.

(** [s.indexOf(p)]: index of the first occurrence, [-1] when there is none. *)
Fixpoint indexOf_from (i : Z) (s p : string) : Z :=
  if startsWith s p then i
  else match s with
       | EmptyString => -1
       | String _ s' => indexOf_from (i + 1) s' p
       end.

Definition indexOf (s p : string) : Z := indexOf_from 0 s p.

(** [Array.prototype.indexOf] on an array of strings. *)
Fixpoint array_indexOf_from (i : Z) (l : list string) (x : string) : Z :=
  match l with
  | [] => -1
  | y :: l' => if (y =? x)%string then i else array_indexOf_from (i + 1) l' x
  end.

Definition array_indexOf (l : list string) (x : string) : Z :=
  array_indexOf_from 0 l x.

(** [span p s]: the longest prefix of [s] whose characters satisfy [p],
    and the rest. *)
Fixpoint span (p : ascii -> bool) (s : string) : string * string :=
  match s with
  | EmptyString => (EmptyString, EmptyString)
  | String c s' =>
      if p c then let (a, b) := span p s' in (String c a, b)
      else (EmptyString, s)
  end.

Fixpoint string_forallb (p : ascii -> bool) (s : string) : bool :=
  match s with
  | EmptyString => true
  | String c s' => p c && string_forallb p s'
  end.

(** [s.split(sep)] for a one-character separator. *)
Fixpoint split (sep : ascii) (s : string) : list string :=
  match s with
  | EmptyString => [EmptyString]
  | String c s' =>
      if Ascii.eqb c sep then EmptyString :: split sep s'
      else match split sep s' with
           | h :: t => String c h :: t
           | [] => [String c EmptyString]
           end
  end.

(** [a.join(sep)]. *)
Fixpoint join (sep : string) (l : list string) : string :=
  match l with
  | [] => ""
  | [x] => x
  | x :: l' => x ++ sep ++ join sep l'
  end.

(** [s.replace(c, '')] for a one-character pattern: the first occurrence
    is removed. *)
Fixpoint remove_first (c : ascii) (s : string) : string :=
  match s with
  | EmptyString => EmptyString
  | String d s' => if Ascii.eqb d c then s' else String d (remove_first c s')
  end.

Fixpoint trim_start (s : string) : string :=
  match s with
  | String c s' => if is_whitespace c then trim_start s' else s
  | EmptyString => EmptyString
  end.

Fixpoint trim_end (s : string) : string :=
  match s with
  | EmptyString => EmptyString
  | String c s' =>
      match trim_end s' with
      | EmptyString => if is_whitespace c then EmptyString else String c EmptyString
      | t => String c t
      end
  end.

(** [s.trim()]. *)
Definition trim (s : string) : string := trim_end (trim_start s).

Definition digit_value (c : ascii) : Z := Z.of_N (code c) - 48.

(** Value of the longest prefix of decimal digits, most significant first. *)
Fixpoint digits_value (acc : Z) (s : string) : Z :=
  match s with
  | String c s' =>
      if is_digit c then digits_value (acc * 10 + digit_value c) s' else acc
  | EmptyString => acc
  end.

Definition starts_with_digit (s : string) : bool :=
  match s with
  | String c _ => is_digit c
  | EmptyString => false
  end.

(** [parseInt(s, 10)]: leading white space and one optional sign are
    skipped, then the longest run of digits is read; [NaN] when there is
    no digit, and otherwise the Number value for the integer read. *)
Definition parseInt (s : string) : jsnum :=
  let s := trim_start s in
  let '(negative, s) :=
    match s with
    | String "-" s' => (true, s')
    | String "+" s' => (false, s')
    | _ => (false, s)
    end in
  if starts_with_digit s then
    Number_of_Z (if negative then - digits_value 0 s else digits_value 0 s)
  else NaN.

(** The part of a URL before the first [?], and the part from it on. *)
Definition pathname (u : string) : string :=
  fst (span (fun c => negb (Ascii.eqb c "?")) u).

Definition search (u : string) : string :=
  snd (span (fun c => negb (Ascii.eqb c "?")) u).


(* ================================================================== *)
(** * The [media-type] package *)
(* ================================================================== *)

(** The parsed media type, with the fields the plugin reads:
    [subtype] is [null] ([None]) when the string is not a media type. *)
Module MediaType.

Record t : Type := mk {
  type : option string;
  subtype : option string;
  subtypeFacets : list string;
  suffix : option string
}.

Definition empty : t := mk None None [] None.

(** Top-level type names accepted by the parser. *)
Definition type_names : list string :=
  ["application"; "audio"; "font"; "image"; "message"; "model"; "multipart";
   "text"; "video"; "*"].

(** Characters of a subtype: letters, digits and [!#$%^&*_-+{}|'.`~]. *)
Definition is_subtype_char (c : ascii) : bool :=
  is_alnum c ||
  existsb (Ascii.eqb c)
    ["!"; "#"; "$"; "%"; "^"; "&"; "*"; "_"; "-"; "+"; "{"; "}"; "|";
     "'"; "."; "`"; "~"]%char.

Definition last_char_is (c : ascii) (s : string) : bool :=
  match String.get (String.length s - 1) s with
  | Some d => Ascii.eqb d c
  | None => false
  end.

(** [_setSubtypeAndSuffix]: a subtype with a [+] that is not its last
    character is cut at the first [+]; facets are the pieces between dots. *)
Definition setSubtypeAndSuffix (ty : string) (sub : string) : t :=
  if (0 <=? indexOf sub "+") && negb (last_char_is "+" sub) then
    let fixes := split "+" sub in
    let fix0 := nth 0 fixes "" in
    mk (Some ty) (Some fix0) (split "." fix0) (nth_error fixes 1)
  else
    mk (Some ty) (Some sub) (split "." sub) None.

(** [fromString]: the string must read [type/subtype] or
    [type/subtype;parameters], the type one of [type_names], the subtype
    between 1 and 127 subtype characters; [*] as a type only goes with [*]
    as a subtype. Parameters are not read by the plugin and are dropped. *)
Definition fromString (str : string) : t :=
  let (ty, rest) := span (fun c => negb (Ascii.eqb c "/")) str in
  match rest with
  | String "/" rest' =>
      let (sub, params) := span (fun c => negb (Ascii.eqb c ";")) rest' in
      if existsb (String.eqb ty) type_names
         && string_forallb is_subtype_char sub
         && (1 <=? strlen sub) && (strlen sub <=? 127)
         && string_forallb (fun c => negb (is_line_terminator c)) params
         && negb ((ty =? "*")%string && negb (sub =? "*")%string)
      then setSubtypeAndSuffix ty sub
      else empty
  | _ => empty
  end.

Definition isValid (m : t) : bool :=
  match type m, subtype m with
  | Some _, Some sub => negb (sub =? "example")%string
  | _, _ => false
  end.

End MediaType.

(* ================================================================== *)
(** * [Hoek.contain] on an array reference *)
(* ================================================================== *)

(** [Hoek.contain(ref, value)] for an array [ref] of integers and one
    primitive [value]: some element of [ref] is strictly equal to [value]. *)
Definition Hoek_contain (ref : list Z) (value : jsval) : bool :=
  existsb (fun x => strict_eq value (VNum (Int x))) ref.

(* ================================================================== *)
(** * Requests *)
(* ================================================================== *)

(** The per-request slot [request.plugins['hapi-api-version']]. It starts
    as [{ count: 0, useDefault: true }]; [apiVersion] and [descriptor] are
    [undefined] until a resolution is stored. *)
Module RequestPlugin.

Record t : Type := mk {
  apiVersion : jsval;
  useDefault : bool;
  count : Z;
  descriptor : option string
}.

Definition initial : t := mk VUndefined true 0 None.

Definition incr (p : t) : t :=
  mk (apiVersion p) (useDefault p) (count p + 1) (descriptor p).

End RequestPlugin.

(** What [Url.parse(u, true)] gives, as far as hapi keeps it: [path] (the
    path and the query string), [pathname] and the parsed [query] (each
    parameter once, with a string for its value). *)
Module Url.

Record t : Type := mk {
  path : string;
  pathname : string;
  query : list (string * string)
}.

End Url.

(** The side of hapi that [request.setUrl] goes through, taken as given:
    Node's [Url.parse] and the [normalize] of the connection's router. *)
Module Connection.

Record t : Type := mk {
  parse : string -> Url.t;
  normalize : string -> string
}.

End Connection.

Fixpoint lookup (k : string) (l : list (string * string)) : option string :=
  match l with
  | [] => None
  | (k', v) :: l' => if (k' =? k)%string then Some v else lookup k l'
  end.

(** A hapi request, with what the plugin and the callbacks read: [url] is
    [request.url.path], [path] is [request.path], which hapi keeps in
    normalized form, [query] is [request.query]. Header names are lower
    case. *)
Module Request.

Record t : Type := mk {
  method : string;
  headers : list (string * string);
  url : string;
  path : string;
  query : list (string * string);
  plugins : option RequestPlugin.t;
  connection : Connection.t
}.

Definition header (name : string) (r : t) : option string :=
  lookup name (headers r).

(** [request.setUrl(u)]: the URL is parsed, and the path is the
    normalized [pathname]. *)
Definition setUrl (r : t) (u : string) : t :=
  let parsed := Connection.parse (connection r) u in
  mk (method r) (headers r) (Url.path parsed)
    (Connection.normalize (connection r) (Url.pathname parsed))
    (Url.query parsed) (plugins r) (connection r).

(** [request.plugins['hapi-api-version'] = p]. *)
Definition set_plugin (r : t) (p : RequestPlugin.t) : t :=
  mk (method r) (headers r) (url r) (path r) (query r) (Some p) (connection r).

End Request.
(* ================================================================== *)
(** * Plugin options and the option schema *)
(* ================================================================== *)

(** Options after validation ([validateOptions.value]). The callback
    [getVersion] receives the request; it reads its options, when it needs
    them, from its own closure. *)
Module Options.

Record t : Type := mk {
  validVersions : list Z;
  defaultVersion : Z;
  passiveMode : bool;
  basePath : string;
  vendorName : option string;
  getVersion : option (Request.t -> completion jsval);
  descriptor : string;
  invalidVersionErrorCode : Z
}.

End Options.

(** Options as passed to [register]: every key may be missing. A key that
    is present holds a value of the JavaScript type its schema starts from
    (an array of numbers, a boolean, a string, a function, a number);
    [defaultVersion], declared [Joi.any()], holds any primitive. [unknown]
    lists the keys that the schema does not declare. *)
Module RawOptions.

Record t : Type := mk {
  validVersions : option (list jsnum);
  defaultVersion : option jsval;
  passiveMode : option bool;
  basePath : option string;
  vendorName : option string;
  getVersion : option (Request.t -> completion jsval);
  descriptor : option string;
  invalidVersionErrorCode : option jsnum;
  unknown : list string
}.

End RawOptions.

(** What a validation error reports, by the option key and the type of the
    error, named after Joi's error types; an error reported for several
    items of [validVersions] is listed once. [object_missing] and
    [object_xor] are about the options as a whole: neither, or both, of
    [vendorName] and [getVersion]. *)
Inductive joi_error : Type :=
| any_required (key : string)
| any_empty (key : string)
| any_invalid (key : string)
| any_allowOnly (key : string)
| string_min (key : string)
| array_min (key : string)
| number_base (key : string)
| number_integer (key : string)
| object_missing
| object_xor
| object_allowUnknown (key : string).

Definition is_NaN (n : jsnum) : bool :=
  match n with NaN => true | _ => false end.

(** The integers among the items. *)
Fixpoint integers (l : list jsnum) : list Z :=
  match l with
  | [] => []
  | Int z :: l' => z :: integers l'
  | _ :: l' => integers l'
  end.

Definition is_Some {A : Type} (o : option A) : bool :=
  match o with Some _ => true | None => false end.

(** [Joi.number().integer()] on a number: [NaN] is not a number for Joi,
    and an integer is a safe integer. *)
Definition number_integer_errors (key : string) (items : list jsnum)
  : list joi_error :=
  (if existsb is_NaN items then [number_base key] else [])
  ++ (if existsb (fun n => negb (is_NaN n) && negb (isSafeInteger n)) items
      then [number_integer key] else []).

(** [validVersions: Joi.array().items(Joi.number().integer()).min(1).required()] *)
Definition validVersions_errors (raw : RawOptions.t) : list joi_error :=
  match RawOptions.validVersions raw with
  | None => [any_required "validVersions"]
  | Some items =>
      number_integer_errors "validVersions" items
      ++ (if (1 <=? Z.of_nat (List.length items)) then []
          else [array_min "validVersions"])
  end.

(** [defaultVersion: Joi.any().valid(Joi.ref('validVersions')).required()]:
    the value must be [===] to an item of [validVersions] as given. *)
Definition defaultVersion_errors (raw : RawOptions.t) : list joi_error :=
  match RawOptions.defaultVersion raw with
  | None => [any_required "defaultVersion"]
  | Some v =>
      match RawOptions.validVersions raw with
      | Some items =>
          if existsb (fun x => strict_eq v (VNum x)) items
          then []
          else [any_allowOnly "defaultVersion"]
      | None => [any_allowOnly "defaultVersion"]
      end
  end.

(** [Joi.string().trim().min(1)], for [basePath] and [vendorName]: a
    string that is empty once trimmed is refused as empty and as too
    short. *)
Definition trimmed_string_errors (key : string) (o : option string)
  : list joi_error :=
  match o with
  | None => []
  | Some s => if (trim s =? "")%string then [any_empty key; string_min key] else []
  end.

(** [descriptor: Joi.string().min(1).invalid('default').default('mediatype')] *)
Definition descriptor_errors (raw : RawOptions.t) : list joi_error :=
  match RawOptions.descriptor raw with
  | None => []
  | Some s =>
      if (s =? "")%string then [any_empty "descriptor"; string_min "descriptor"]
      else if (s =? "default")%string then [any_invalid "descriptor"]
      else []
  end.

(** [invalidVersionErrorCode: Joi.number().integer().default(415)] *)
Definition invalidVersionErrorCode_errors (raw : RawOptions.t)
  : list joi_error :=
  match RawOptions.invalidVersionErrorCode raw with
  | Some n => number_integer_errors "invalidVersionErrorCode" [n]
  | None => []
  end.

(** [.xor('vendorName', 'getVersion')] *)
Definition xor_errors (raw : RawOptions.t) : list joi_error :=
  match is_Some (RawOptions.vendorName raw), is_Some (RawOptions.getVersion raw) with
  | true, true => [object_xor]
  | false, false => [object_missing]
  | _, _ => []
  end.

(** All errors of [internals.optionsSchema] ([abortEarly: false],
    [allowUnknown: false]). *)
Definition optionsSchema_errors (raw : RawOptions.t) : list joi_error :=
  validVersions_errors raw
  ++ defaultVersion_errors raw
  ++ trimmed_string_errors "basePath" (RawOptions.basePath raw)
  ++ trimmed_string_errors "vendorName" (RawOptions.vendorName raw)
  ++ descriptor_errors raw
  ++ invalidVersionErrorCode_errors raw
  ++ map object_allowUnknown (RawOptions.unknown raw)
  ++ xor_errors raw.

Definition default {A : Type} (d : A) (o : option A) : A :=
  match o with Some a => a | None => d end.

(** The converted value: strings trimmed, defaults filled in. *)
Definition optionsSchema_value (raw : RawOptions.t) : Options.t :=
  Options.mk
    (integers (default [] (RawOptions.validVersions raw)))
    (match RawOptions.defaultVersion raw with
     | Some (VNum (Int z)) => z
     | _ => 0
     end)
    (default false (RawOptions.passiveMode raw))
    (default "/" (option_map trim (RawOptions.basePath raw)))
    (option_map trim (RawOptions.vendorName raw))
    (RawOptions.getVersion raw)
    (default "mediatype" (RawOptions.descriptor raw))
    (match RawOptions.invalidVersionErrorCode raw with
     | Some (Int z) => z
     | _ => 415
     end).

(** [Joi.validate(options, internals.optionsSchema, ...)]: the errors, or
    the converted value. *)
Definition Joi_validate (raw : RawOptions.t) : list joi_error + Options.t :=
  match optionsSchema_errors raw with
  | [] => inr (optionsSchema_value raw)
  | errs => inl errs
  end.
(* ================================================================== *)
(** * The media-type extractor *)
(* ================================================================== *)

(** [/^vnd.[a-zA-Z0-9]+\.v[0-9]+$/.test(s)]: the letters [vnd], any one
    character that is not a line terminator, one or more letters or
    digits, a dot, [v], one or more digits, up to the end. *)
Definition subtype_regex_test (s : string) : bool :=
  match s with
  | String "v" (String "n" (String "d" (String c rest))) =>
      negb (is_line_terminator c) &&
      (let (token, rest1) := span is_alnum rest in
       negb (token =? "")%string &&
       match rest1 with
       | String "." (String "v" digits) =>
           negb (digits =? "")%string && string_forallb is_digit digits
       | _ => false
       end)
  | _ => false
  end.

Definition option_string_eqb (a b : option string) : bool :=
  match a, b with
  | Some x, Some y => (x =? y)%string
  | None, None => true
  | _, _ => false
  end.

Definition _extractVersionFromAcceptHeader
  (request : Request.t) (options : Options.t) : completion jsval :=
  match Request.header "accept" request with
  | None => Normal VNull
  | Some acceptHeader =>
      if (acceptHeader =? "")%string then Normal VNull
      else
        let media := MediaType.fromString acceptHeader in
        if MediaType.isValid media
           && subtype_regex_test (default "null" (MediaType.subtype media))
        then
          if negb (option_string_eqb
                     (nth_error (MediaType.subtypeFacets media) 1)
                     (Options.vendorName options))
          then Normal (VNum (Int (-1)))
          else
            match nth_error (MediaType.subtypeFacets media) 2 with
            | None => Thrown "TypeError: Cannot read property 'replace' of undefined"
            | Some facet =>
                let version := remove_first "v" facet in
                Normal (VNum (parseInt version))
            end
        else Normal (VNum (Int (-1)))
  end.

(* ================================================================== *)
(** * The server *)
(* ================================================================== *)

(** The per-server slot [server.plugins['hapi-api-version']]. *)
Module ServerPlugin.

Record t : Type := mk {
  count : Z;
  descriptors : list string
}.

Definition initial : t := mk 0 [].

End ServerPlugin.

(** A route as returned by [server.match]: its registered path. *)
Module Route.

Record t : Type := mk {
  method : string;
  path : string
}.

End Route.

(** The server: the plugin slot, the router and the [onRequest]
    extensions added so far, each the handler of [register] closed over
    its validated options. The router, [server.match(method, path)], is
    taken as given: it answers with a route, with [null] ([None]), or
    throws, as hapi does for a path that it finds invalid. *)
Module Server.

Record t : Type := mk {
  plugins : option ServerPlugin.t;
  match_ : string -> string -> completion (option Route.t);
  onRequest_exts : list Options.t
}.

End Server.

(** What [register] passes to [next]. *)
Inductive register_error : Type :=
| ValidationError (errs : list joi_error)
| Error (message : string).

Definition duplicate_descriptor_message (descriptor : string) : string :=
  "hapi-api-version plugins contain duplicate descriptors '" ++ descriptor
  ++ "'. When registering multiple plugins, each plugin must be assigned a unique descriptor.".

(** [exports.register(server, options, next)]: the server afterwards and
    the argument of [next] ([None] for [next()]). *)
Definition register (server : Server.t) (raw : RawOptions.t)
  : Server.t * option register_error :=
  match Joi_validate raw with
  | inl errs => (server, Some (ValidationError errs))
  | inr options =>
      let serverPlugin := default ServerPlugin.initial (Server.plugins server) in
      let server :=
        Server.mk (Some serverPlugin) (Server.match_ server)
          (Server.onRequest_exts server) in
      if negb (array_indexOf (ServerPlugin.descriptors serverPlugin)
                 (Options.descriptor options) =? -1)
      then (server, Some (Error (duplicate_descriptor_message (Options.descriptor options))))
      else
        let serverPlugin :=
          ServerPlugin.mk (ServerPlugin.count serverPlugin + 1)
            (ServerPlugin.descriptors serverPlugin ++ [Options.descriptor options]) in
        (Server.mk (Some serverPlugin) (Server.match_ server)
           (Server.onRequest_exts server ++ [options]),
         None)
  end.

(** Registering several option objects in order; stops at the first error. *)
Fixpoint register_all (server : Server.t) (raws : list RawOptions.t)
  : Server.t * option register_error :=
  match raws with
  | [] => (server, None)
  | raw :: raws' =>
      match register server raw with
      | (server', None) => register_all server' raws'
      | refused => refused
      end
  end.

(* ================================================================== *)
(** * The [onRequest] handler *)
(* ================================================================== *)

(** How a handler hands control back: [reply.continue()] or [reply(err)]
    for a Boom error with that status code and message. *)
Inductive reply : Type :=
| reply_continue
| reply_error (statusCode : Z) (message : string).

(** [Boom.create(statusCode, message)]: Boom asserts that the status code
    is 400 or above, and throws otherwise, with the code in the message. *)
Definition Boom_create (statusCode : Z) (message : string) : completion reply :=
  if 400 <=? statusCode then Normal (reply_error statusCode message)
  else Thrown ("First argument must be a number (400+): " ++ Z_to_string statusCode).

Definition invalid_version_message (validVersions : list Z) : string :=
  "Invalid api-version. Valid values: " ++ join "," (map Z_to_string validVersions).

(** [basePath + 'v' + version + p.slice(basePath.length - 1)] *)
Definition versioned (options : Options.t) (version : jsval) (p : string)
  : string :=
  Options.basePath options ++ "v" ++ to_string version
  ++ slice (strlen (Options.basePath options) - 1) p.

(** The requested version: the callback when there is one, the media-type
    extractor otherwise. *)
Definition requested_version (options : Options.t) (request : Request.t)
  : completion jsval :=
  match Options.getVersion options with
  | Some getVersion => getVersion request
  | None => _extractVersionFromAcceptHeader request options
  end.

(** The handler installed by [register], for the options it closes over,
    the server slot and the router: the request afterwards and the reply. *)
Definition onRequest
  (serverPlugin : ServerPlugin.t)
  (server_match : string -> string -> completion (option Route.t))
  (options : Options.t) (request : Request.t)
  : completion (Request.t * reply) :=
  let isRootPath := (Options.basePath options =? "/")%string in
  (* If the request is not for a versioned resource, nothing to do here *)
  if negb isRootPath
     && negb (startsWith (Request.path request) (Options.basePath options))
  then Normal (request, reply_continue)
  else
    let requestPlugin := default RequestPlugin.initial (Request.plugins request) in
    let request := Request.set_plugin request requestPlugin in
    (* If the apiVersion has already been determined, nothing to do here *)
    if truthy (RequestPlugin.apiVersion requestPlugin)
       && negb (RequestPlugin.useDefault requestPlugin)
    then Normal (request, reply_continue)
    else
      (* Increment the request plugin counter *)
      let requestPlugin := RequestPlugin.incr requestPlugin in
      let request := Request.set_plugin request requestPlugin in
      (* determine the requested version *)
      let* requestedVersion := requested_version options request in
      (* If passive mode skips the rest for non versioned routes *)
      if Options.passiveMode options && negb (truthy requestedVersion)
      then Normal (request, reply_continue)
      (* If there was a version by now check if it is valid *)
      else if truthy requestedVersion
              && negb (Hoek_contain (Options.validVersions options) requestedVersion)
      then
        let* err := Boom_create (Options.invalidVersionErrorCode options)
                      (invalid_version_message (Options.validVersions options)) in
        Normal (request, err)
      (* Determine if other API version plugins exist. If yes, nothing to do here. *)
      else if negb (truthy requestedVersion)
              && negb (RequestPlugin.count requestPlugin =? ServerPlugin.count serverPlugin)
      then Normal (request, reply_continue)
      else
        (* If there was no version by now use the default version *)
        let '(requestedVersion, useDefault) :=
          if negb (truthy requestedVersion)
          then (VNum (Int (Options.defaultVersion options)), true)
          else (requestedVersion, false) in
        let versionedPath := versioned options requestedVersion (Request.path request) in
        let* route := server_match (Request.method request) versionedPath in
        match route with
        | Some route =>
            if indexOf (Route.path route)
                 (Options.basePath options ++ "v" ++ to_string requestedVersion ++ "/")
               =? 0
            then
              let request :=
                Request.setUrl request
                  (versioned options requestedVersion (Request.url request)) in
              (* Set version for usage in handler *)
              Normal (Request.set_plugin request
                        (RequestPlugin.mk requestedVersion useDefault
                           (RequestPlugin.count requestPlugin)
                           (Some (if useDefault then "default"
                                  else Options.descriptor options))),
                      reply_continue)
            else Normal (request, reply_continue)
        | None => Normal (request, reply_continue)
        end.

(** The [onRequest] extension point: handlers run in the order they were
    added; one that replies with an error, or throws, ends the chain. *)
Fixpoint run_exts
  (serverPlugin : ServerPlugin.t)
  (server_match : string -> string -> completion (option Route.t))
  (exts : list Options.t) (request : Request.t)
  : completion (Request.t * reply) :=
  match exts with
  | [] => Normal (request, reply_continue)
  | options :: exts' =>
      let* result := onRequest serverPlugin server_match options request in
      match result with
      | (request', reply_continue) =>
          run_exts serverPlugin server_match exts' request'
      | (request', reply_error statusCode message) =>
          Normal (request', reply_error statusCode message)
      end
  end.

Definition run_onRequest (server : Server.t) (request : Request.t)
  : completion (Request.t * reply) :=
  run_exts (default ServerPlugin.initial (Server.plugins server))
    (Server.match_ server) (Server.onRequest_exts server) request.

(* ================================================================== *)
(** * Notions used to state the properties *)
(* ================================================================== *)

(** The slot of a request, [{ count: 0, useDefault: true }] when the
    request has none yet. *)
Definition slot (r : Request.t) : RequestPlugin.t :=
  default RequestPlugin.initial (Request.plugins r).

(** The request falls under the base path of the instance. *)
Definition in_scope (o : Options.t) (r : Request.t) : bool :=
  (Options.basePath o =? "/")%string
  || startsWith (Request.path r) (Options.basePath o).

(** A concrete (non-default) version has already been stored. *)
Definition claimed (r : Request.t) : bool :=
  truthy (RequestPlugin.apiVersion (slot r))
  && negb (RequestPlugin.useDefault (slot r)).

(** The instance examines the request: it goes on to extract a version. *)
Definition examines (o : Options.t) (r : Request.t) : bool :=
  in_scope o r && negb (claimed r).

(** The request once an instance has counted itself in. *)
Definition attempt (r : Request.t) : Request.t :=
  Request.set_plugin r (RequestPlugin.incr (slot r)).

(** What the extraction step of an instance yields on a request. *)
Definition extracted (o : Options.t) (r : Request.t) : completion jsval :=
  requested_version o (attempt r).

(** The resolution published for handlers: the slot once a version and a
    descriptor have been stored in it. *)
Definition published (r : Request.t) : option RequestPlugin.t :=
  match Request.plugins r with
  | Some p => if is_Some (RequestPlugin.descriptor p) then Some p else None
  | None => None
  end.

(** The request after a rewrite to [version] by instance [o]. *)
Definition rewritten (o : Options.t) (version : jsval) (useDefault : bool)
  (r : Request.t) : Request.t :=
  Request.set_plugin
    (Request.setUrl (attempt r) (versioned o version (Request.url r)))
    (RequestPlugin.mk version useDefault (RequestPlugin.count (slot r) + 1)
       (Some (if useDefault then "default" else Options.descriptor o))).

(** What the route check of an instance finds for a version: whether the
    router has a route for the version-qualified path whose registered
    path begins with the version-qualified prefix; the router may throw. *)
Definition route_lookup
  (server_match : string -> string -> completion (option Route.t))
  (o : Options.t) (version : jsval) (r : Request.t) : completion bool :=
  let* route := server_match (Request.method r)
                  (versioned o version (Request.path r)) in
  Normal match route with
         | Some route =>
             startsWith (Route.path route)
               (Options.basePath o ++ "v" ++ to_string version ++ "/")
         | None => false
         end.

(** The router has a route for the version-qualified path whose registered
    path begins with the version-qualified prefix. *)
Definition versioned_route_exists
  (server_match : string -> string -> completion (option Route.t))
  (o : Options.t) (version : jsval) (r : Request.t) : bool :=
  match route_lookup server_match o version r with
  | Normal found => found
  | Thrown _ => false
  end.

(** No version can be extracted from the request by the instance, whatever
    the slot holds. *)
Definition no_version (o : Options.t) (r : Request.t) : Prop :=
  forall p, exists v,
    requested_version o (Request.set_plugin r p) = Normal v /\ truthy v = false.

(** The request after [n] instances have counted themselves in. *)
Fixpoint attempts (n : nat) (r : Request.t) : Request.t :=
  match n with
  | O => r
  | S n' => attempts n' (attempt r)
  end.

(** Characters of a path: anything but [?]. *)
Definition not_qmark (c : ascii) : bool := negb (Ascii.eqb c "?").

(** A handler rewrote the request: the URL afterwards differs ([setUrl] is
    the only place where the URL is assigned, and the URL that it is given
    is longer than the one it replaces). *)
Definition rewrote (before after : Request.t) : bool :=
  negb (Request.url before =? Request.url after)%string.

(** Number of handlers of the chain that rewrite the request. *)
Fixpoint rewrites
  (serverPlugin : ServerPlugin.t)
  (server_match : string -> string -> completion (option Route.t))
  (exts : list Options.t) (request : Request.t) : nat :=
  match exts with
  | [] => O
  | options :: exts' =>
      match onRequest serverPlugin server_match options request with
      | Normal (request', reply_continue) =>
          ((if rewrote request request' then 1 else 0)
           + rewrites serverPlugin server_match exts' request')%nat
      | Normal (request', reply_error _ _) =>
          if rewrote request request' then 1%nat else O
      | Thrown _ => O
      end
  end.

(** The Accept header of a request is malformed for an instance: the media
    type is invalid, or its subtype fails the pattern, or its second facet
    is not the vendor name. *)
Definition malformed_accept (o : Options.t) (acceptHeader : string) : Prop :=
  let media := MediaType.fromString acceptHeader in
  MediaType.isValid media = false
  \/ subtype_regex_test (default "null" (MediaType.subtype media)) = false
  \/ nth_error (MediaType.subtypeFacets media) 1 <> Options.vendorName o.


(* ================================================================== *)
(** * Scenarios of the test suite and of the README *)
(* ================================================================== *)

(** A router over literal paths: the first route with that method and
    exactly that path. As [server.match] does, it throws for an empty
    method and for a path that does not begin with [/]. Method names are
    lower case, as hapi keeps them. *)
Definition literal_match (routes : list Route.t) (method path : string)
  : completion (option Route.t) :=
  if (method =? "")%string then Thrown "Invalid method: "
  else if negb (startsWith path "/") then Thrown ("Invalid path: " ++ path)
  else
    Normal (find (fun route =>
                    (Route.method route =? method)%string
                    && (Route.path route =? path)%string) routes).

(** [key=value] pairs of a query string, in order. *)
Definition parse_pair (kv : string) : string * string :=
  let (k, v) := span (fun c => negb (Ascii.eqb c "=")) kv in (k, drop 1 v).

Definition parse_query (q : string) : list (string * string) :=
  map parse_pair (filter (fun kv => negb (kv =? "")%string) (split "&" q)).

(** The connection of the scenarios. Their URLs are a path, and at most a
    [?] and a query string of parameters given once, out of letters,
    digits and [/ . - _ = &]: on such a URL [Url.parse] keeps the URL as
    its [path], splits it at the [?] and reads the pairs of the query
    string, and the path is in normalized form. *)
Definition plain_parse (u : string) : Url.t :=
  Url.mk u (pathname u) (parse_query (drop 1 (search u))).

Definition plain_connection : Connection.t :=
  Connection.mk plain_parse (fun p => p).

(** A request of the scenarios, as hapi presents it. *)
Definition plain_request (method : string) (headers : list (string * string))
  (url : string) (plugins : option RequestPlugin.t) : Request.t :=
  Request.mk method headers url (pathname url)
    (parse_query (drop 1 (search url))) plugins plain_connection.

(** The callback of the README's header section:
    [parseInt(request.query.version, 10)]. *)
Definition readme_getVersion (request : Request.t) : completion jsval :=
  Normal (VNum (parseInt (default "undefined" (lookup "version" (Request.query request))))).

(** The callback of 'Multiple plugin registration':
    [version ? parseInt(request.query.version, 10) : null]. *)
Definition query_getVersion (request : Request.t) : completion jsval :=
  match lookup "version" (Request.query request) with
  | Some version =>
      if (version =? "")%string then Normal VNull
      else Normal (VNum (parseInt version))
  | None => Normal VNull
  end.

Definition get_request (url : string) (headers : list (string * string)) : Request.t :=
  plain_request "get" headers url None.

Definition raw_options (validVersions : list Z) (defaultVersion : Z)
  : RawOptions.t :=
  RawOptions.mk (Some (map Int validVersions)) (Some (VNum (Int defaultVersion)))
    None None None None None None [].

Definition with_vendorName (vendorName : string) (raw : RawOptions.t)
  : RawOptions.t :=
  RawOptions.mk (RawOptions.validVersions raw) (RawOptions.defaultVersion raw)
    (RawOptions.passiveMode raw) (RawOptions.basePath raw) (Some vendorName)
    (RawOptions.getVersion raw) (RawOptions.descriptor raw)
    (RawOptions.invalidVersionErrorCode raw) (RawOptions.unknown raw).

Definition with_getVersion (getVersion : Request.t -> completion jsval)
  (raw : RawOptions.t) : RawOptions.t :=
  RawOptions.mk (RawOptions.validVersions raw) (RawOptions.defaultVersion raw)
    (RawOptions.passiveMode raw) (RawOptions.basePath raw)
    (RawOptions.vendorName raw) (Some getVersion) (RawOptions.descriptor raw)
    (RawOptions.invalidVersionErrorCode raw) (RawOptions.unknown raw).

Definition with_passiveMode (passiveMode : bool) (raw : RawOptions.t)
  : RawOptions.t :=
  RawOptions.mk (RawOptions.validVersions raw) (RawOptions.defaultVersion raw)
    (Some passiveMode) (RawOptions.basePath raw) (RawOptions.vendorName raw)
    (RawOptions.getVersion raw) (RawOptions.descriptor raw)
    (RawOptions.invalidVersionErrorCode raw) (RawOptions.unknown raw).

Definition with_basePath (basePath : string) (raw : RawOptions.t)
  : RawOptions.t :=
  RawOptions.mk (RawOptions.validVersions raw) (RawOptions.defaultVersion raw)
    (RawOptions.passiveMode raw) (Some basePath) (RawOptions.vendorName raw)
    (RawOptions.getVersion raw) (RawOptions.descriptor raw)
    (RawOptions.invalidVersionErrorCode raw) (RawOptions.unknown raw).

Definition with_descriptor (descriptor : string) (raw : RawOptions.t)
  : RawOptions.t :=
  RawOptions.mk (RawOptions.validVersions raw) (RawOptions.defaultVersion raw)
    (RawOptions.passiveMode raw) (RawOptions.basePath raw)
    (RawOptions.vendorName raw) (RawOptions.getVersion raw) (Some descriptor)
    (RawOptions.invalidVersionErrorCode raw) (RawOptions.unknown raw).

Definition with_invalidVersionErrorCode (statusCode : Z) (raw : RawOptions.t)
  : RawOptions.t :=
  RawOptions.mk (RawOptions.validVersions raw) (RawOptions.defaultVersion raw)
    (RawOptions.passiveMode raw) (RawOptions.basePath raw)
    (RawOptions.vendorName raw) (RawOptions.getVersion raw)
    (RawOptions.descriptor raw) (Some (Int statusCode)) (RawOptions.unknown raw).

(** A server with the given literal routes and no plugin registered. *)
Definition new_server (paths : list string) : Server.t :=
  Server.mk None (literal_match (map (Route.mk "get") paths)) [].

(** 'MediaType Versioning': one instance on the Accept header. *)
Definition mediatype_raw : RawOptions.t :=
  with_vendorName "mysuperapi" (raw_options [1; 2] 1).

Definition mediatype_server : Server.t :=
  fst (register (new_server ["/unversioned"; "/v1/versioned"; "/v2/versioned"])
         mediatype_raw).

(** 'Versioning with passive mode', with a versioned route added. *)
Definition passive_server : Server.t :=
  fst (register (new_server ["/unversioned"; "/v1/versioned"])
         (with_passiveMode true mediatype_raw)).

(** 'Multiple plugin registration': the Accept header first, the query
    parameter second, under [/api/]; descriptors as in the README. *)
Definition accept_api_raw : RawOptions.t :=
  with_basePath "/api/" mediatype_raw.

Definition query_api_raw : RawOptions.t :=
  with_descriptor "querystring"
    (with_basePath "/api/" (with_getVersion query_getVersion (raw_options [1; 2] 1))).

Definition multi_server : Server.t :=
  fst (register_all
         (new_server ["/unversioned"; "/api/v1/versioned"; "/api/v2/versioned"])
         [accept_api_raw; query_api_raw]).


(** The README's callback on the query string. *)
Definition readme_server : Server.t :=
  fst (register (new_server ["/v1/versioned"; "/v2/versioned"])
         (with_getVersion readme_getVersion (raw_options [1; 2] 1))).

(** Version numbers that the schema accepts: zero and negative integers. *)
Definition zero_version_server : Server.t :=
  fst (register (new_server ["/v0/versioned"; "/v1/versioned"])
         (with_getVersion (fun _ => Normal (VNum (Int 0))) (raw_options [0; 1] 1))).

Definition negative_version_raw : RawOptions.t :=
  with_vendorName "mysuperapi" (raw_options [-1; 1] 1).

Definition negative_version_server : Server.t :=
  fst (register (new_server ["/v-1/versioned"; "/v1/versioned"])
         negative_version_raw).

Definition negative_passive_server : Server.t :=
  fst (register (new_server ["/v-1/versioned"; "/v1/versioned"])
         (with_passiveMode true negative_version_raw)).

(** A status code below 400, which the schema accepts. *)
Definition low_status_server : Server.t :=
  fst (register (new_server ["/v1/versioned"])
         (with_invalidVersionErrorCode 302 mediatype_raw)).

Definition low_status_passive_server : Server.t :=
  fst (register (new_server ["/v1/versioned"])
         (with_invalidVersionErrorCode 302 (with_passiveMode true mediatype_raw))).

(** The [n]-th instance registered on a server, counting from 0. *)
Definition instance (n : nat) (server : Server.t) : Options.t :=
  nth n (Server.onRequest_exts server) (optionsSchema_value (raw_options [] 0)).

Definition server_slot (server : Server.t) : ServerPlugin.t :=
  default ServerPlugin.initial (Server.plugins server).

Definition accept_v2 : list (string * string) :=
  [("accept", "application/vnd.mysuperapi.v2+json")].

(** A request with both indications: version 2 in the Accept header,
    version 1 in the query string. *)
Definition both_indications : Request.t :=
  get_request "/api/versioned?version=1" accept_v2.

(** An instance whose vendor name reads like a version facet. *)
Definition lax_vendor_options : Options.t :=
  optionsSchema_value (with_vendorName "v2" (raw_options [1; 2] 1)).

(* ================================================================== *)
(** * Further notions and scenarios *)
(* ================================================================== *)

(** The same options with another [passiveMode]. *)
Definition set_passiveMode (passiveMode : bool) (o : Options.t) : Options.t :=
  Options.mk (Options.validVersions o) (Options.defaultVersion o) passiveMode
    (Options.basePath o) (Options.vendorName o) (Options.getVersion o)
    (Options.descriptor o) (Options.invalidVersionErrorCode o).

(** The same options with another callback. *)
Definition set_getVersion (getVersion : Request.t -> completion jsval)
  (o : Options.t) : Options.t :=
  Options.mk (Options.validVersions o) (Options.defaultVersion o)
    (Options.passiveMode o) (Options.basePath o) (Options.vendorName o)
    (Some getVersion) (Options.descriptor o)
    (Options.invalidVersionErrorCode o).

(** A facet that reads [v<digits>]. *)
Definition is_version_facet (s : string) : bool :=
  match s with
  | String "v" digits => negb (digits =? "")%string && string_forallb is_digit digits
  | _ => false
  end.

(** A resolution as instance [o] stores it: an integer of its
    [validVersions], its default when the default flag is set, and the
    descriptor that goes with the flag. *)
Definition resolution_of (o : Options.t) (p : RequestPlugin.t) : Prop :=
  exists z,
    RequestPlugin.apiVersion p = VNum (Int z)
    /\ In z (Options.validVersions o)
    /\ (RequestPlugin.useDefault p = true -> z = Options.defaultVersion o)
    /\ RequestPlugin.descriptor p
       = Some (if RequestPlugin.useDefault p then "default"
               else Options.descriptor o).

(** The state that registrations keep: one handler and one descriptor per
    counted instance, no descriptor twice, every handler on validated
    options. *)
Definition well_registered (server : Server.t) : Prop :=
  ServerPlugin.count (server_slot server)
  = Z.of_nat (List.length (Server.onRequest_exts server))
  /\ ServerPlugin.descriptors (server_slot server)
     = map Options.descriptor (Server.onRequest_exts server)
  /\ NoDup (ServerPlugin.descriptors (server_slot server))
  /\ forall o, In o (Server.onRequest_exts server) ->
               exists raw, Joi_validate raw = inr o.


(** The callback of 'Custom Versioning' in the test suite: the header
    [api-version]; [null] when it is missing or empty, [-1] when
    [parseInt] finds no number in it. *)
Definition header_getVersion (request : Request.t) : completion jsval :=
  match Request.header "api-version" request with
  | None => Normal VNull
  | Some headerVersion =>
      if (headerVersion =? "")%string then Normal VNull
      else
        match parseInt headerVersion with
        | NaN => Normal (VNum (Int (-1)))
        | parsedVersion => Normal (VNum parsedVersion)
        end
  end.

(** 'Custom Versioning': one instance on the header [api-version]. *)
Definition custom_server : Server.t :=
  fst (register (new_server ["/unversioned"; "/v1/versioned"; "/v2/versioned"])
         (with_getVersion header_getVersion (raw_options [1; 2] 1))).

(** Two instances with different base paths: the Accept header under
    [/api/], the query parameter under [/]. *)
Definition split_paths_server : Server.t :=
  fst (register_all (new_server ["/v1/versioned"; "/api/v1/versioned"])
         [accept_api_raw;
          with_descriptor "querystring"
            (with_getVersion query_getVersion (raw_options [1; 2] 1))]).


(* ================================================================== *)
(** * Paths, in the words of the specification *)
(* ================================================================== *)

(** The version-qualified path of a path that reads [basePath] and then
    [rest]: a segment [v<version>] is inserted right after [basePath]. *)
Definition version_qualified (basePath : string) (version : Z) (rest : string)
  : string :=
  basePath ++ "v" ++ Z_to_string version ++ "/" ++ rest.

(** The version-qualified prefix of registered paths. *)
Definition version_prefix (basePath : string) (version : Z) : string :=
  basePath ++ "v" ++ Z_to_string version ++ "/".

(** The router answers with a route for [path] whose registered path
    begins with [prefix]. *)
Definition route_found
  (server_match : string -> string -> completion (option Route.t))
  (method path prefix : string) : bool :=
  match server_match method path with
  | Normal (Some route) => startsWith (Route.path route) prefix
  | _ => false
  end.

(** The router answers without such a route: with none at all, or with
    one that is registered under another prefix. *)
Definition no_route_found
  (server_match : string -> string -> completion (option Route.t))
  (method path prefix : string) : bool :=
  match server_match method path with
  | Normal (Some route) => negb (startsWith (Route.path route) prefix)
  | Normal None => true
  | Thrown _ => false
  end.

(** The connection takes the URL [p ++ s], of path [p] and query part
    [s], as it is written: [Url.parse] splits it into [p] and [s], and [p]
    is in normalized form. *)
Definition taken_as_written (c : Connection.t) (p s : string) : Prop :=
  Url.path (Connection.parse c (p ++ s)) = p ++ s
  /\ Url.pathname (Connection.parse c (p ++ s)) = p
  /\ Connection.normalize c p = p.

(* ================================================================== *)
(** * Scenarios outside the test suite *)
(* ================================================================== *)

(** ** A router with path parameters *)

Definition is_hex (c : ascii) : bool :=
  is_digit c
  || ((97 <=? code c)%N && (code c <=? 102)%N)
  || ((65 <=? code c)%N && (code c <=? 70)%N).

(** A [%] that two hexadecimal digits do not follow: [decodeURIComponent]
    throws on it. *)
Fixpoint malformed_escape (s : string) : bool :=
  match s with
  | "" => false
  | String c s' =>
      if Ascii.eqb c "%"
      then match s' with
           | String h (String l _) =>
               negb (is_hex h && is_hex l) || malformed_escape s'
           | _ => true
           end
      else malformed_escape s'
  end.

(** A segment [{name}] of a registered path stands for a parameter. *)
Definition is_parameter (segment : string) : bool :=
  startsWith segment "{" && MediaType.last_char_is "}" segment.

(** The segments of a path against those of a registered path: the values
    of the parameters when they match one by one. *)
Fixpoint match_segments (route path : list string) : option (list string) :=
  match route, path with
  | [], [] => Some []
  | segment :: route', value :: path' =>
      match match_segments route' path' with
      | Some values =>
          if is_parameter segment
          then if (value =? "")%string then None else Some (value :: values)
          else if (segment =? value)%string then Some values else None
      | None => None
      end
  | _, _ => None
  end.

(** A router over registered paths whose segments are literals or
    parameters: the first route with that method that the path matches.
    As [server.match] does, it throws for an empty method, for a path that
    does not begin with [/], and when the value of a parameter cannot be
    decoded. It is used on paths whose well-formed escapes stand for
    ASCII characters. *)
Definition parameter_match (routes : list Route.t) (method path : string)
  : completion (option Route.t) :=
  if (method =? "")%string then Thrown "Invalid method: "
  else if negb (startsWith path "/") then Thrown ("Invalid path: " ++ path)
  else
    match find (fun route =>
                  (Route.method route =? method)%string
                  && is_Some (match_segments (split "/" (Route.path route))
                                (split "/" path))) routes with
    | Some route =>
        if existsb malformed_escape
             (default [] (match_segments (split "/" (Route.path route))
                            (split "/" path)))
        then Thrown ("Invalid path: " ++ path)
        else Normal (Some route)
    | None => Normal None
    end.

(** One instance on the Accept header, and the route
    [/v1/versioned/{id}]. *)
Definition parameter_server : Server.t :=
  fst (register
         (Server.mk None
            (parameter_match [Route.mk "get" "/v1/versioned/{id}"]) [])
         mediatype_raw).

Definition accept_v1 : list (string * string) :=
  [("accept", "application/vnd.mysuperapi.v1+json")].

(** [GET /versioned/%zz] with version 1 in the Accept header: hapi leaves
    an escape that it cannot read as it is written. *)
Definition undecodable_request : Request.t :=
  Request.mk "get" accept_v1 "/versioned/%zz" "/versioned/%zz" [] None
    plain_connection.

(** ** A path that hapi normalizes *)

(** One instance on the Accept header under [/api/]. *)
Definition api_server : Server.t :=
  fst (register (new_server ["/unversioned"; "/api/v1/versioned"])
         accept_api_raw).

(** [GET /%61pi/versioned]: [%61] is the letter [a], so hapi presents the
    path [/api/versioned], and keeps the URL as it was sent. *)
Definition escaped_request (c : Connection.t) : Request.t :=
  Request.mk "get" [] "/%61pi/versioned" "/api/versioned" [] None c.


(* ================================================================== *)
(** * Lemmas *)
(* ================================================================== *)

(** ** Strings *)

Lemma append_empty_r (s : string) : s ++ "" = s.
Proof. induction s as [|c s IH]; simpl; [reflexivity | now rewrite IH]. Qed.

Lemma append_assoc (a b c : string) : (a ++ b) ++ c = a ++ b ++ c.
Proof. induction a as [|x a IH]; simpl; [reflexivity | now rewrite IH]. Qed.

Lemma length_append (a b : string) :
  String.length (a ++ b) = (String.length a + String.length b)%nat.
Proof. induction a as [|x a IH]; simpl; [reflexivity | now rewrite IH]. Qed.

Lemma strlen_append (a b : string) : strlen (a ++ b) = strlen a + strlen b.
Proof. unfold strlen. rewrite length_append. lia. Qed.

Lemma strlen_nonneg (s : string) : 0 <= strlen s.
Proof. unfold strlen. lia. Qed.

Lemma strlen_zero (s : string) : strlen s = 0 -> s = "".
Proof. destruct s; [reflexivity | unfold strlen; simpl; lia]. Qed.

Lemma startsWith_append (p rest : string) : startsWith (p ++ rest) p = true.
Proof.
  induction p as [|c p IH]; simpl; [reflexivity|].
  now rewrite Ascii.eqb_refl, IH.
Qed.

Lemma startsWith_split (s p : string) :
  startsWith s p = true -> exists rest, s = p ++ rest.
Proof.
  revert s. induction p as [|c p IH]; intros s H.
  - now exists s.
  - destruct s as [|d s]; simpl in H; [discriminate|].
    apply andb_true_iff in H as [Hc Hp]. apply Ascii.eqb_eq in Hc. subst d.
    destruct (IH _ Hp) as [rest ->]. now exists rest.
Qed.

Lemma indexOf_from_range (i : Z) (s p : string) :
  indexOf_from i s p = -1 \/ i <= indexOf_from i s p.
Proof.
  revert i. induction s as [|c s IH]; intros i; simpl.
  - destruct (startsWith "" p); [right; lia | now left].
  - destruct (startsWith (String c s) p); [right; lia|].
    destruct (IH (i + 1)) as [->|H]; [now left | right; lia].
Qed.

Lemma indexOf_zero (s p : string) : (indexOf s p =? 0) = startsWith s p.
Proof.
  unfold indexOf. destruct s as [|c s]; simpl.
  - now destruct (startsWith "" p).
  - destruct (startsWith (String c s) p); [reflexivity|].
    destruct (indexOf_from_range 1 s p) as [->|H]; [reflexivity|].
    apply Z.eqb_neq. lia.
Qed.

Lemma drop_append (n : nat) (a b : string) :
  (n <= String.length a)%nat -> drop n (a ++ b) = drop n a ++ b.
Proof.
  revert a. induction n as [|n IH]; intros a H; [reflexivity|].
  destruct a as [|c a]; simpl in *; [lia|]. apply IH. lia.
Qed.

Lemma drop_split (n : nat) (s : string) :
  (n <= String.length s)%nat ->
  exists pre, s = pre ++ drop n s /\ String.length pre = n.
Proof.
  revert s. induction n as [|n IH]; intros s H.
  - now exists "".
  - destruct s as [|c s]; simpl in *; [lia|].
    destruct (IH s) as [pre [E L]]; [lia|].
    exists (String c pre). simpl. split; [now rewrite <- E | now rewrite L].
Qed.

Lemma slice_append (k : Z) (a b : string) :
  0 <= k <= strlen a -> slice k (a ++ b) = slice k a ++ b.
Proof.
  intros H. unfold slice. destruct (Z.ltb_spec k 0); [lia|].
  apply drop_append. unfold strlen in H. lia.
Qed.

Lemma slice_split (k : Z) (s : string) :
  0 <= k <= strlen s ->
  exists pre, s = pre ++ slice k s /\ strlen pre = k.
Proof.
  intros H. unfold slice. destruct (Z.ltb_spec k 0); [lia|].
  destruct (drop_split (Z.to_nat k) s) as [pre [E L]].
  - unfold strlen in H. lia.
  - exists pre. split; [exact E | unfold strlen; lia].
Qed.

(** ** [span], [pathname] and [search] *)

Lemma span_append (p : ascii -> bool) (s : string) :
  s = fst (span p s) ++ snd (span p s).
Proof.
  induction s as [|c s IH]; simpl; [reflexivity|].
  destruct (p c); [|reflexivity].
  destruct (span p s) as [a b]. simpl in *. now rewrite <- IH.
Qed.

Lemma span_fst_forallb (p : ascii -> bool) (s : string) :
  string_forallb p (fst (span p s)) = true.
Proof.
  induction s as [|c s IH]; simpl; [reflexivity|].
  destruct (p c) eqn:E; [|reflexivity].
  destruct (span p s) as [a b]. simpl in *. now rewrite E.
Qed.

Lemma span_forallb_append (p : ascii -> bool) (a s : string) :
  string_forallb p a = true ->
  span p (a ++ s) = (a ++ fst (span p s), snd (span p s)).
Proof.
  induction a as [|c a IH]; simpl; intros H.
  - now destruct (span p s).
  - apply andb_true_iff in H as [Hc Ha]. rewrite Hc, (IH Ha). reflexivity.
Qed.

Lemma span_snd_fixed (p : ascii -> bool) (s : string) :
  span p (snd (span p s)) = ("", snd (span p s)).
Proof.
  induction s as [|c s IH]; simpl; [reflexivity|].
  destruct (p c) eqn:E.
  - destruct (span p s) as [a b]. exact IH.
  - simpl. now rewrite E.
Qed.

Lemma url_pathname_search (u : string) : u = pathname u ++ search u.
Proof. apply span_append. Qed.

Lemma pathname_no_qmark (u : string) :
  string_forallb not_qmark (pathname u) = true.
Proof. apply (span_fst_forallb not_qmark). Qed.

Lemma pathname_prepend (a u : string) :
  string_forallb not_qmark a = true -> pathname (a ++ u) = a ++ pathname u.
Proof.
  intros H. unfold pathname. fold not_qmark.
  now rewrite (span_forallb_append not_qmark a u H).
Qed.

Lemma search_prepend (a u : string) :
  string_forallb not_qmark a = true -> search (a ++ u) = search u.
Proof.
  intros H. unfold search. fold not_qmark.
  now rewrite (span_forallb_append not_qmark a u H).
Qed.

Lemma pathname_path_search (p u : string) :
  string_forallb not_qmark p = true ->
  pathname (p ++ search u) = p /\ search (p ++ search u) = search u.
Proof.
  intros H. unfold pathname, search. fold not_qmark.
  rewrite (span_forallb_append not_qmark p _ H).
  rewrite (span_snd_fixed not_qmark u). simpl. now rewrite append_empty_r.
Qed.

Lemma forallb_append (p : ascii -> bool) (a b : string) :
  string_forallb p (a ++ b) = string_forallb p a && string_forallb p b.
Proof.
  induction a as [|c a IH]; simpl; [reflexivity|].
  now rewrite IH, andb_assoc.
Qed.

Lemma forallb_drop (p : ascii -> bool) (n : nat) (s : string) :
  string_forallb p s = true -> string_forallb p (drop n s) = true.
Proof.
  revert s. induction n as [|n IH]; intros s H; [exact H|].
  destruct s as [|c s]; [reflexivity|]. simpl in *.
  apply andb_true_iff in H as [_ H]. now apply IH.
Qed.

Lemma forallb_slice (p : ascii -> bool) (k : Z) (s : string) :
  string_forallb p s = true -> string_forallb p (slice k s) = true.
Proof. intros H. unfold slice. destruct (k <? 0); now apply forallb_drop. Qed.

(** ** Decimal rendering *)

Lemma string_of_uint_digits (d : Decimal.uint) :
  string_forallb is_digit (NilEmpty.string_of_uint d) = true.
Proof. induction d; simpl; auto. Qed.

Lemma is_digit_not_qmark (s : string) :
  string_forallb is_digit s = true -> string_forallb not_qmark s = true.
Proof.
  induction s as [|c s IH]; simpl; [reflexivity|].
  intros H. apply andb_true_iff in H as [Hc Hs]. rewrite (IH Hs), andb_true_r.
  unfold not_qmark. destruct (Ascii.eqb_spec c "?"); [subst c; discriminate | reflexivity].
Qed.

Lemma NilZero_uint_digits (d : Decimal.uint) :
  string_forallb is_digit (NilZero.string_of_uint d) = true.
Proof. destruct d; try reflexivity; apply (string_of_uint_digits (_ d)). Qed.

(** Up to [2^53] an integer is rendered by its decimal digits. *)
Lemma Z_to_string_safe (z : Z) :
  Z.abs z <= two53 -> Z_to_string z = NilZero.string_of_int (Z.to_int z).
Proof.
  intros H. unfold Z_to_string.
  destruct (Z.abs z <=? two53) eqn:E; [reflexivity|].
  apply Z.leb_gt in E. lia.
Qed.

(** ** Requests and slots *)

Lemma set_plugin_same (r : Request.t) (p : RequestPlugin.t) :
  Request.plugins r = Some p -> Request.set_plugin r p = r.
Proof. destruct r; simpl; intros ->; reflexivity. Qed.

Lemma claimed_has_slot (r : Request.t) :
  claimed r = true -> Request.plugins r = Some (slot r).
Proof.
  unfold claimed, slot. destruct (Request.plugins r); [reflexivity | discriminate].
Qed.

Lemma claimed_set_plugin (r : Request.t) :
  claimed r = true -> Request.set_plugin r (slot r) = r.
Proof. intros H. apply set_plugin_same, claimed_has_slot, H. Qed.


Lemma count_attempt (r : Request.t) :
  RequestPlugin.count (slot (attempt r)) = RequestPlugin.count (slot r) + 1.
Proof. reflexivity. Qed.


Lemma Hoek_contain_In (V : list Z) (v : jsval) :
  Hoek_contain V v = true <-> exists z, v = VNum (Int z) /\ In z V.
Proof.
  unfold Hoek_contain. rewrite existsb_exists. split.
  - intros [x [Hin Heq]]. exists x. split; [|exact Hin].
    destruct v as [| |b|[|neg|z|n k]|s]; simpl in Heq; try discriminate.
    apply Z.eqb_eq in Heq. now subst.
  - intros [z [-> Hin]]. exists z. split; [exact Hin | apply Z.eqb_refl].
Qed.

(** ** The branches of [onRequest] *)

Lemma scope_guard (o : Options.t) (r : Request.t) :
  negb (Options.basePath o =? "/")%string
  && negb (startsWith (Request.path r) (Options.basePath o))
  = negb (in_scope o r).
Proof. unfold in_scope. now rewrite negb_orb. Qed.

Section Handler.

Variable sp : ServerPlugin.t.
Variable m : string -> string -> completion (option Route.t).
Variable o : Options.t.
Variable r : Request.t.

Lemma onRequest_out_of_scope :
  in_scope o r = false -> onRequest sp m o r = Normal (r, reply_continue).
Proof.
  intros H. unfold onRequest. now rewrite scope_guard, H.
Qed.

Lemma onRequest_claimed :
  in_scope o r = true -> claimed r = true ->
  onRequest sp m o r = Normal (r, reply_continue).
Proof.
  intros H C. unfold onRequest. rewrite scope_guard, H. simpl negb. cbv iota.
  fold (slot r). unfold claimed in C. rewrite C.
  now rewrite (claimed_set_plugin r C).
Qed.

(** What an examining instance does once extraction has yielded [v]. *)
Lemma onRequest_examined :
  examines o r = true ->
  onRequest sp m o r =
  let* v := extracted o r in
  if Options.passiveMode o && negb (truthy v)
  then Normal (attempt r, reply_continue)
  else if truthy v && negb (Hoek_contain (Options.validVersions o) v)
  then
    let* err := Boom_create (Options.invalidVersionErrorCode o)
                  (invalid_version_message (Options.validVersions o)) in
    Normal (attempt r, err)
  else if negb (truthy v)
          && negb (RequestPlugin.count (slot r) + 1 =? ServerPlugin.count sp)
  then Normal (attempt r, reply_continue)
  else
    let version := if truthy v then v else VNum (Int (Options.defaultVersion o)) in
    let* found := route_lookup m o version r in
    Normal (if found then rewritten o version (negb (truthy v)) r
            else attempt r,
            reply_continue).
Proof.
  unfold examines. intros H. apply andb_true_iff in H as [S C].
  apply negb_true_iff in C.
  unfold onRequest. rewrite scope_guard, S. simpl negb. cbv iota.
  fold (slot r). unfold claimed in C. rewrite C.
  unfold extracted, attempt.
  destruct (requested_version o _) as [v|e]; [|reflexivity]. simpl bind.
  destruct (Options.passiveMode o && negb (truthy v)); [reflexivity|].
  destruct (truthy v && negb (Hoek_contain (Options.validVersions o) v)); [reflexivity|].
  simpl RequestPlugin.count.
  destruct (negb (truthy v) && _); [reflexivity|].
  unfold route_lookup, rewritten, attempt.
  destruct (truthy v); simpl negb; cbv iota.
  - change (Request.path (Request.set_plugin _ _)) with (Request.path r).
    change (Request.method (Request.set_plugin _ _)) with (Request.method r).
    destruct (m _ _) as [[route|]|e]; [| |]; try reflexivity.
    simpl bind. rewrite indexOf_zero. destruct (startsWith _ _); reflexivity.
  - change (Request.path (Request.set_plugin _ _)) with (Request.path r).
    change (Request.method (Request.set_plugin _ _)) with (Request.method r).
    destruct (m _ _) as [[route|]|e]; [| |]; try reflexivity.
    simpl bind. rewrite indexOf_zero. destruct (startsWith _ _); reflexivity.
Qed.

(** The route check: a version-qualified route is there, or the router
    answers without one, or it throws. *)
Lemma route_lookup_found (v : jsval) :
  versioned_route_exists m o v r = true <-> route_lookup m o v r = Normal true.
Proof.
  unfold versioned_route_exists.
  destruct (route_lookup m o v r) as [[|]|e]; split; congruence.
Qed.

End Handler.

(** ** Validated options *)

Lemma Joi_validate_inr (raw : RawOptions.t) (o : Options.t) :
  Joi_validate raw = inr o ->
  optionsSchema_errors raw = [] /\ o = optionsSchema_value raw.
Proof.
  unfold Joi_validate. destruct (optionsSchema_errors raw); [|discriminate].
  intros [= <-]. now split.
Qed.

Lemma validated_basePath (raw : RawOptions.t) (o : Options.t) :
  Joi_validate raw = inr o -> Options.basePath o <> "".
Proof.
  intros H. apply Joi_validate_inr in H as [E ->].
  unfold optionsSchema_errors in E.
  apply app_eq_nil in E as [_ E]. apply app_eq_nil in E as [_ E].
  apply app_eq_nil in E as [E _].
  unfold optionsSchema_value. simpl Options.basePath.
  destruct (RawOptions.basePath raw) as [s|]; simpl in *; [|discriminate].
  destruct (String.eqb_spec (trim s) ""); [discriminate | assumption].
Qed.

(** ** Inversion of [onRequest] *)

Lemma onRequest_inversion sp m o r r' rp :
  onRequest sp m o r = Normal (r', rp) ->
  Request.url r' = Request.url r
  \/ (exists z ud,
        examines o r = true
        /\ versioned_route_exists m o (VNum (Int z)) r = true
        /\ r' = rewritten o (VNum (Int z)) ud r
        /\ rp = reply_continue).
Proof.
  intros H.
  destruct (in_scope o r) eqn:S.
  2:{ rewrite (onRequest_out_of_scope sp m o r S) in H. injection H as <- <-. now left. }
  destruct (claimed r) eqn:C.
  { rewrite (onRequest_claimed sp m o r S C) in H. injection H as <- <-. now left. }
  assert (X : examines o r = true) by (unfold examines; now rewrite S, C).
  rewrite (onRequest_examined sp m o r X) in H.
  destruct (extracted o r) as [v|e]; [|discriminate]. simpl bind in H.
  destruct (Options.passiveMode o && negb (truthy v)).
  { injection H as <- <-. now left. }
  destruct (truthy v && negb (Hoek_contain (Options.validVersions o) v)) eqn:V.
  { destruct (Boom_create _ _); [|discriminate]. injection H as <- <-. now left. }
  destruct (negb (truthy v) && _).
  { injection H as <- <-. now left. }
  cbv zeta in H.
  destruct (route_lookup m o _ r) as [[|]|e] eqn:R; simpl bind in H;
    [| |discriminate].
  2:{ injection H as <- <-. now left. }
  injection H as <- <-. right. apply route_lookup_found in R.
  destruct (truthy v) eqn:T.
  - simpl in V. apply negb_false_iff in V.
    apply Hoek_contain_In in V as [z [-> _]].
    exists z, false. repeat split; assumption.
  - exists (Options.defaultVersion o), true. repeat split; assumption.
Qed.

Lemma truthy_Int (z : Z) : z <> 0 -> truthy (VNum (Int z)) = true.
Proof. intros H. simpl. apply negb_true_iff, Z.eqb_neq, H. Qed.

Lemma onRequest_valid sp m o r v :
  examines o r = true -> extracted o r = Normal v ->
  truthy v = true -> Hoek_contain (Options.validVersions o) v = true ->
  onRequest sp m o r
  = let* found := route_lookup m o v r in
    Normal (if found then rewritten o v false r else attempt r,
            reply_continue).
Proof.
  intros X E T V. rewrite (onRequest_examined sp m o r X), E. simpl bind.
  rewrite T, V. simpl negb. rewrite andb_false_r. reflexivity.
Qed.


Lemma onRequest_invalid sp m o r v :
  examines o r = true -> extracted o r = Normal v ->
  truthy v = true -> Hoek_contain (Options.validVersions o) v = false ->
  onRequest sp m o r
  = let* err := Boom_create (Options.invalidVersionErrorCode o)
                  (invalid_version_message (Options.validVersions o)) in
    Normal (attempt r, err).
Proof.
  intros X E T V. rewrite (onRequest_examined sp m o r X), E. simpl bind.
  rewrite T, V. simpl negb. rewrite andb_false_r. reflexivity.
Qed.

Lemma Boom_create_status (statusCode : Z) (message : string) :
  400 <= statusCode ->
  Boom_create statusCode message = Normal (reply_error statusCode message).
Proof.
  intros H. unfold Boom_create. now destruct (Z.leb_spec 400 statusCode); [|lia].
Qed.

Lemma onRequest_invalid_status sp m o r v :
  examines o r = true -> extracted o r = Normal v ->
  truthy v = true -> Hoek_contain (Options.validVersions o) v = false ->
  400 <= Options.invalidVersionErrorCode o ->
  onRequest sp m o r
  = Normal (attempt r,
            reply_error (Options.invalidVersionErrorCode o)
              (invalid_version_message (Options.validVersions o))).
Proof.
  intros X E T V B. rewrite (onRequest_invalid sp m o r v X E T V).
  now rewrite (Boom_create_status _ _ B).
Qed.

Lemma onRequest_no_version sp m o r v :
  examines o r = true -> extracted o r = Normal v -> truthy v = false ->
  onRequest sp m o r
  = if Options.passiveMode o
       || negb (RequestPlugin.count (slot r) + 1 =? ServerPlugin.count sp)
    then Normal (attempt r, reply_continue)
    else
      let* found := route_lookup m o (VNum (Int (Options.defaultVersion o))) r in
      Normal (if found
              then rewritten o (VNum (Int (Options.defaultVersion o))) true r
              else attempt r,
              reply_continue).
Proof.
  intros X E T. rewrite (onRequest_examined sp m o r X), E. simpl bind.
  rewrite T. simpl. destruct (Options.passiveMode o); [reflexivity|]. simpl.
  destruct (_ =? _); reflexivity.
Qed.

(** ** The media-type extractor *)

Lemma option_string_eqb_eq (a b : option string) :
  option_string_eqb a b = true <-> a = b.
Proof.
  destruct a as [x|], b as [y|]; simpl; try (split; congruence).
  rewrite String.eqb_eq. split; congruence.
Qed.

Lemma extractor_malformed (o : Options.t) (r : Request.t) (h : string) :
  Request.header "accept" r = Some h -> h <> "" -> malformed_accept o h ->
  _extractVersionFromAcceptHeader r o = Normal (VNum (Int (-1))).
Proof.
  intros H N M. unfold _extractVersionFromAcceptHeader. rewrite H.
  destruct (String.eqb_spec h ""); [contradiction|].
  cbv zeta. destruct (MediaType.isValid _ && _) eqn:V; [|reflexivity].
  apply andb_true_iff in V as [V1 V2].
  destruct M as [M|[M|M]]; [congruence | congruence |].
  destruct (option_string_eqb _ _) eqn:E; [|reflexivity].
  apply option_string_eqb_eq in E. contradiction.
Qed.

Lemma sentinel_invalid (V : list Z) :
  ~ In (-1) V ->
  truthy (VNum (Int (-1))) = true /\ Hoek_contain V (VNum (Int (-1))) = false.
Proof.
  intros N. split; [reflexivity|].
  destruct (Hoek_contain V _) eqn:C; [|reflexivity].
  apply Hoek_contain_In in C as [z [E I]]. injection E as <-. contradiction.
Qed.

Lemma split_no_separator (sep : ascii) (s : string) :
  string_forallb (fun c => negb (Ascii.eqb c sep)) s = true -> split sep s = [s].
Proof.
  induction s as [|c s IH]; simpl; [reflexivity|]. intros H.
  apply andb_true_iff in H as [Hc Hs]. apply negb_true_iff in Hc.
  now rewrite Hc, (IH Hs).
Qed.

Lemma split_at_separator (sep : ascii) (a b : string) :
  string_forallb (fun c => negb (Ascii.eqb c sep)) a = true ->
  split sep (a ++ String sep b) = a :: split sep b.
Proof.
  induction a as [|c a IH]; simpl; intros H.
  - now rewrite Ascii.eqb_refl.
  - apply andb_true_iff in H as [Hc Ha]. apply negb_true_iff in Hc.
    now rewrite Hc, (IH Ha).
Qed.

Lemma forallb_impl (p q : ascii -> bool) (s : string) :
  (forall c, p c = true -> q c = true) ->
  string_forallb p s = true -> string_forallb q s = true.
Proof.
  intros I. induction s as [|c s IH]; simpl; [reflexivity|]. intros H.
  apply andb_true_iff in H as [Hc Hs]. now rewrite (I c Hc), (IH Hs).
Qed.

Lemma alnum_not_dot (c : ascii) : is_alnum c = true -> negb (Ascii.eqb c ".") = true.
Proof. destruct (Ascii.eqb_spec c "."); [subst c; discriminate | reflexivity]. Qed.

Lemma digit_alnum (c : ascii) : is_digit c = true -> is_alnum c = true.
Proof. unfold is_alnum. intros ->. apply orb_true_r. Qed.

Lemma versioned_subtype_facets (token digits : string) :
  string_forallb is_alnum token = true ->
  string_forallb is_digit digits = true ->
  split "." ("vnd." ++ token ++ ".v" ++ digits) = ["vnd"; token; "v" ++ digits].
Proof.
  intros T D.
  change ("vnd." ++ token ++ ".v" ++ digits)
    with ("vnd" ++ String "." (token ++ String "." ("v" ++ digits))).
  rewrite split_at_separator by reflexivity.
  rewrite split_at_separator by (apply (forallb_impl is_alnum); [apply alnum_not_dot | exact T]).
  rewrite split_no_separator; [reflexivity|]. simpl.
  apply (forallb_impl is_digit); [|exact D].
  intros c H. apply alnum_not_dot, digit_alnum, H.
Qed.

Lemma versioned_subtype_matches (token digits : string) :
  token <> "" -> string_forallb is_alnum token = true ->
  digits <> "" -> string_forallb is_digit digits = true ->
  subtype_regex_test ("vnd." ++ token ++ ".v" ++ digits) = true.
Proof.
  intros TN T DN D. simpl.
  rewrite (span_forallb_append is_alnum token _ T). simpl.
  rewrite append_empty_r, D, andb_true_r.
  destruct (String.eqb_spec token ""); [contradiction|].
  destruct (String.eqb_spec digits ""); [contradiction|]. reflexivity.
Qed.

(** Up to [2^53] the Number value for an integer is the integer. *)
Lemma Number_of_Z_safe (z : Z) : Z.abs z <= two53 -> Number_of_Z z = Int z.
Proof.
  intros H. unfold Number_of_Z.
  destruct (Z.abs z <=? two53) eqn:E; [reflexivity|].
  apply Z.leb_gt in E. lia.
Qed.

Lemma parseInt_digits (digits : string) :
  digits <> "" -> string_forallb is_digit digits = true ->
  parseInt digits = Number_of_Z (digits_value 0 digits).
Proof.
  intros N D. destruct digits as [|c s]; [contradiction|].
  simpl in D. apply andb_true_iff in D as [Dc _].
  unfold parseInt.
  assert (W : is_whitespace c = false).
  { destruct c as [[|] [|] [|] [|] [|] [|] [|] [|]]; try discriminate; reflexivity. }
  assert (E : trim_start (String c s) = String c s) by (simpl; now rewrite W).
  rewrite E.
  assert (S : c <> "-"%char /\ c <> "+"%char).
  { split; intros ->; discriminate. }
  destruct S as [S1 S2].
  destruct c as [[|] [|] [|] [|] [|] [|] [|] [|]]; try discriminate;
    try (exfalso; apply S1; reflexivity); try (exfalso; apply S2; reflexivity);
    reflexivity.
Qed.

Lemma fromString_facets (h sub : string) :
  MediaType.subtype (MediaType.fromString h) = Some sub ->
  MediaType.subtypeFacets (MediaType.fromString h) = split "." sub.
Proof.
  unfold MediaType.fromString.
  destruct (span _ h) as [ty rest].
  destruct rest as [|c rest']; [discriminate|].
  destruct c as [[|] [|] [|] [|] [|] [|] [|] [|]]; try discriminate.
  destruct (span _ rest') as [s params].
  destruct (_ && _); [|discriminate].
  unfold MediaType.setSubtypeAndSuffix.
  destruct (_ && _); simpl; intros [= <-]; reflexivity.
Qed.

Lemma extractor_version (o : Options.t) (r : Request.t) (h token digits : string) :
  Request.header "accept" r = Some h ->
  MediaType.isValid (MediaType.fromString h) = true ->
  MediaType.subtype (MediaType.fromString h)
  = Some ("vnd." ++ token ++ ".v" ++ digits) ->
  token <> "" -> string_forallb is_alnum token = true ->
  digits <> "" -> string_forallb is_digit digits = true ->
  Options.vendorName o = Some token ->
  _extractVersionFromAcceptHeader r o
  = Normal (VNum (Number_of_Z (digits_value 0 digits))).
Proof.
  intros H V S TN T DN D N. unfold _extractVersionFromAcceptHeader. rewrite H.
  destruct (String.eqb_spec h "") as [->|_]; [discriminate|].
  cbv zeta. rewrite V, S, (fromString_facets _ _ S). cbn [default andb].
  rewrite (versioned_subtype_matches token digits TN T DN D).
  rewrite (versioned_subtype_facets token digits T D), N.
  simpl. rewrite String.eqb_refl. simpl.
  now rewrite (parseInt_digits digits DN D).
Qed.

(** ** The extension chain *)

Section Chain.

Variable sp : ServerPlugin.t.
Variable m : string -> string -> completion (option Route.t).


Lemma rewrote_same (r r' : Request.t) :
  Request.url r' = Request.url r -> rewrote r r' = false.
Proof. intros E. unfold rewrote. now rewrite E, String.eqb_refl. Qed.

(** Once a request is claimed, the rest of the chain leaves it alone. *)
Lemma claimed_is_final (exts : list Options.t) (r : Request.t) :
  claimed r = true ->
  run_exts sp m exts r = Normal (r, reply_continue)
  /\ rewrites sp m exts r = O.
Proof.
  intros C. induction exts as [|o exts [IH1 IH2]]; [now split|].
  assert (H : onRequest sp m o r = Normal (r, reply_continue)).
  { destruct (in_scope o r) eqn:S.
    - now apply onRequest_claimed.
    - now apply onRequest_out_of_scope. }
  simpl. rewrite H. simpl. split; [exact IH1|].
  now rewrite IH2, rewrote_same.
Qed.

Lemma claimed_rewritten (o : Options.t) (v : jsval) (r : Request.t) :
  truthy v = true -> claimed (rewritten o v false r) = true.
Proof. intros T. unfold claimed. simpl. now rewrite T. Qed.



End Chain.

(** ** Numbers that Joi takes for integers *)

Lemma same_number_eq (a b : jsnum) : same_number a b = true -> a = b.
Proof.
  destruct a as [|x|x|n k], b as [|y|y|n' k']; simpl; try discriminate.
  - intros H. apply Bool.eqb_prop in H. now subst.
  - intros H. apply Z.eqb_eq in H. now subst.
  - intros H. apply andb_true_iff in H as [H1 H2].
    apply Z.eqb_eq in H1. apply Pos.eqb_eq in H2. now subst.
Qed.

Lemma isSafeInteger_Int (n : jsnum) :
  isSafeInteger n = true <-> exists z, n = Int z /\ Z.abs z < two53.
Proof.
  split.
  - destruct n as [|x|z|n k]; simpl; try discriminate.
    intros H. exists z. split; [reflexivity|]. now apply Z.ltb_lt.
  - intros [z [-> H]]. simpl. now apply Z.ltb_lt.
Qed.

Lemma number_integer_errors_nil (key : string) (items : list jsnum) :
  number_integer_errors key items = [] <->
  forall n, In n items -> isSafeInteger n = true.
Proof.
  unfold number_integer_errors. split.
  - intros E n I. apply app_eq_nil in E as [E1 E2].
    destruct (existsb is_NaN items) eqn:X1; [discriminate|].
    destruct (existsb _ items) eqn:X2 in E2; [discriminate|].
    destruct (isSafeInteger n) eqn:Sf; [reflexivity|]. exfalso.
    destruct (is_NaN n) eqn:Nn.
    + assert (F : existsb is_NaN items = true)
        by (apply existsb_exists; now exists n).
      congruence.
    + assert (F : existsb (fun n => negb (is_NaN n) && negb (isSafeInteger n)) items
                  = true).
      { apply existsb_exists. exists n. split; [exact I|]. now rewrite Nn, Sf. }
      congruence.
  - intros A.
    assert (X1 : existsb is_NaN items = false).
    { destruct (existsb is_NaN items) eqn:X; [|reflexivity].
      apply existsb_exists in X as [n [I Nn]]. specialize (A n I).
      destruct n; discriminate. }
    assert (X2 : existsb (fun n => negb (is_NaN n) && negb (isSafeInteger n)) items
                 = false).
    { destruct (existsb (fun n => negb (is_NaN n) && negb (isSafeInteger n)) items)
        eqn:X; [|reflexivity].
      apply existsb_exists in X as [n [I Q]]. rewrite (A n I) in Q.
      now rewrite andb_false_r in Q. }
    now rewrite X1, X2.
Qed.

Lemma In_integers (z : Z) (items : list jsnum) :
  In z (integers items) <-> In (Int z) items.
Proof.
  induction items as [|[|x|y|n k] items IH]; simpl.
  - tauto.
  - rewrite IH. split; [now right | intros [H|H]; [discriminate | exact H]].
  - rewrite IH. split; [now right | intros [H|H]; [discriminate | exact H]].
  - rewrite IH. split; intros [H|H]; try (now right); left; congruence.
  - rewrite IH. split; [now right | intros [H|H]; [discriminate | exact H]].
Qed.

Lemma safe_items_map (items : list jsnum) :
  (forall n, In n items -> isSafeInteger n = true) ->
  items = map Int (integers items).
Proof.
  induction items as [|n items IH]; intros A; [reflexivity|].
  destruct (proj1 (isSafeInteger_Int n) (A n (or_introl eq_refl))) as [z [-> _]].
  simpl. f_equal. apply IH. intros n' I. apply A. now right.
Qed.

Lemma integers_map (l : list Z) : integers (map Int l) = l.
Proof. induction l as [|z l IH]; simpl; [reflexivity | now rewrite IH]. Qed.

(** The schema has no error: what each key then holds. *)
Lemma schema_accepts (raw : RawOptions.t) :
  optionsSchema_errors raw = [] <->
  (exists items d,
     RawOptions.validVersions raw = Some (map Int items)
     /\ items <> []
     /\ (forall z, In z items -> Z.abs z < two53)
     /\ RawOptions.defaultVersion raw = Some (VNum (Int d))
     /\ In d items)
  /\ (forall s, RawOptions.basePath raw = Some s -> trim s <> "")
  /\ (forall s, RawOptions.vendorName raw = Some s -> trim s <> "")
  /\ (RawOptions.vendorName raw = None <-> RawOptions.getVersion raw <> None)
  /\ (forall s, RawOptions.descriptor raw = Some s -> s <> "" /\ s <> "default")
  /\ (forall n, RawOptions.invalidVersionErrorCode raw = Some n ->
                isSafeInteger n = true)
  /\ RawOptions.unknown raw = [].
Proof.
  unfold optionsSchema_errors. split.
  - intros E.
    apply app_eq_nil in E as [V E]. apply app_eq_nil in E as [D E].
    apply app_eq_nil in E as [B E]. apply app_eq_nil in E as [N E].
    apply app_eq_nil in E as [Ds E]. apply app_eq_nil in E as [C E].
    apply app_eq_nil in E as [U X].
    split; [|split; [|split; [|split; [|split; [|split]]]]].
    + unfold validVersions_errors in V. unfold defaultVersion_errors in D.
      destruct (RawOptions.validVersions raw) as [items|]; [|discriminate].
      apply app_eq_nil in V as [V1 V2].
      pose proof (proj1 (number_integer_errors_nil _ _) V1) as Sf.
      destruct (RawOptions.defaultVersion raw) as [v|]; [|discriminate].
      destruct (existsb _ items) eqn:Ex; [|discriminate].
      apply existsb_exists in Ex as [n [I Q]].
      destruct (proj1 (isSafeInteger_Int n) (Sf n I)) as [d [-> _]].
      destruct v as [| |b|x|s]; simpl in Q; try discriminate.
      apply same_number_eq in Q. subst x.
      exists (integers items), d.
      split; [f_equal; now apply safe_items_map|].
      split. { intros Z0. apply In_integers in I. rewrite Z0 in I. destruct I. }
      split. { intros z Iz. apply In_integers in Iz.
               destruct (proj1 (isSafeInteger_Int _) (Sf _ Iz)) as [z' [[= <-] L]].
               exact L. }
      split; [reflexivity|]. now apply In_integers.
    + intros s S. rewrite S in B. simpl in B.
      destruct (String.eqb_spec (trim s) ""); [discriminate | assumption].
    + intros s S. rewrite S in N. simpl in N.
      destruct (String.eqb_spec (trim s) ""); [discriminate | assumption].
    + unfold xor_errors in X.
      destruct (RawOptions.vendorName raw), (RawOptions.getVersion raw);
        simpl in X; try discriminate; split; intros H; congruence.
    + intros s S. unfold descriptor_errors in Ds. rewrite S in Ds.
      destruct (String.eqb_spec s ""); [discriminate|].
      destruct (String.eqb_spec s "default"); [discriminate|]. now split.
    + intros n S. unfold invalidVersionErrorCode_errors in C. rewrite S in C.
      apply (proj1 (number_integer_errors_nil _ _) C). now left.
    + destruct (RawOptions.unknown raw); [reflexivity | discriminate].
  - intros ((items & d & V & NE & Sf & D & I) & B & N & X & Ds & C & U).
    assert (E1 : validVersions_errors raw = []).
    { unfold validVersions_errors. rewrite V.
      replace (number_integer_errors "validVersions" (map Int items)) with (@nil joi_error).
      2:{ symmetry. apply number_integer_errors_nil. intros n In_.
          apply in_map_iff in In_ as [z [<- Iz]].
          apply isSafeInteger_Int. exists z. split; [reflexivity | now apply Sf]. }
      rewrite length_map. destruct items; [contradiction|].
      cbn [List.length app]. rewrite Nat2Z.inj_succ.
      destruct (Z.leb_spec 1 (Z.succ (Z.of_nat (List.length items))));
        [reflexivity | lia]. }
    assert (E2 : defaultVersion_errors raw = []).
    { unfold defaultVersion_errors. rewrite D, V.
      replace (existsb (fun x => strict_eq (VNum (Int d)) (VNum x)) (map Int items))
        with true; [reflexivity|].
      symmetry. apply existsb_exists. exists (Int d).
      split; [now apply in_map | apply Z.eqb_refl]. }
    assert (E3 : forall key o, (forall s, o = Some s -> trim s <> "") ->
                               trimmed_string_errors key o = []).
    { intros key [s|] H; [|reflexivity]. simpl.
      destruct (String.eqb_spec (trim s) "") as [T|]; [|reflexivity].
      destruct (H s eq_refl T). }
    assert (E4 : descriptor_errors raw = []).
    { unfold descriptor_errors.
      destruct (RawOptions.descriptor raw) as [s|]; [|reflexivity].
      destruct (Ds s eq_refl) as [D1 D2].
      apply String.eqb_neq in D1, D2. now rewrite D1, D2. }
    assert (E5 : invalidVersionErrorCode_errors raw = []).
    { unfold invalidVersionErrorCode_errors.
      destruct (RawOptions.invalidVersionErrorCode raw) as [n|]; [|reflexivity].
      apply number_integer_errors_nil. intros n' [<-|[]]. now apply C. }
    assert (E6 : xor_errors raw = []).
    { unfold xor_errors.
      destruct (RawOptions.vendorName raw), (RawOptions.getVersion raw);
        simpl; try reflexivity; destruct X as [X1 X2].
      - exfalso. assert (F : Some s = None :> option string)
          by (apply X2; discriminate). discriminate.
      - exfalso. now apply (X1 eq_refl). }
    now rewrite E1, E2, (E3 _ _ B), (E3 _ _ N), E4, E5, E6, U.
Qed.

Lemma validated_default (raw : RawOptions.t) (o : Options.t) :
  Joi_validate raw = inr o ->
  In (Options.defaultVersion o) (Options.validVersions o).
Proof.
  intros H. apply Joi_validate_inr in H as [E ->].
  apply schema_accepts in E as ((items & d & V & _ & _ & D & I) & _).
  unfold optionsSchema_value. simpl. rewrite V, D. simpl.
  now rewrite integers_map.
Qed.

(** Versions that passed validation are safe integers. *)
Lemma validated_versions_safe (raw : RawOptions.t) (o : Options.t) (z : Z) :
  Joi_validate raw = inr o -> In z (Options.validVersions o) ->
  Z.abs z < two53.
Proof.
  intros H I. apply Joi_validate_inr in H as [E ->].
  apply schema_accepts in E as ((items & d & V & _ & Sf & _) & _).
  unfold optionsSchema_value in I. simpl in I. rewrite V in I. simpl in I.
  rewrite integers_map in I. now apply Sf.
Qed.

Section Deferral.

Variable sp : ServerPlugin.t.
Variable m : string -> string -> completion (option Route.t).

Lemma attempts_url n r : Request.url (attempts n r) = Request.url r.
Proof. revert r. induction n as [|n IH]; intros r; simpl; [reflexivity | now rewrite IH]. Qed.

Lemma attempts_method n r : Request.method (attempts n r) = Request.method r.
Proof. revert r. induction n as [|n IH]; intros r; simpl; [reflexivity | now rewrite IH]. Qed.

Lemma attempts_count n r :
  RequestPlugin.count (slot (attempts n r))
  = RequestPlugin.count (slot r) + Z.of_nat n.
Proof.
  revert r. induction n as [|n IH]; intros r.
  - simpl. lia.
  - simpl attempts. rewrite IH, count_attempt. lia.
Qed.



Lemma attempt_published r : published r = None -> published (attempt r) = None.
Proof.
  unfold published, attempt, slot. simpl.
  destruct (Request.plugins r) as [p|]; [|reflexivity]. simpl.
  now destruct (is_Some (RequestPlugin.descriptor p)).
Qed.

Lemma attempts_published n r :
  Request.plugins r = None -> published (attempts n r) = None.
Proof.
  assert (G : forall k r, published r = None -> published (attempts k r) = None).
  { induction k as [|k IH]; intros r' D; [exact D|].
    simpl. now apply IH, attempt_published. }
  intros N. apply G. unfold published. now rewrite N.
Qed.

Lemma attempts_path n r : Request.path (attempts n r) = Request.path r.
Proof. revert r. induction n as [|n IH]; intros r; simpl; [reflexivity | now rewrite IH]. Qed.



Lemma route_lookup_attempts (o : Options.t) (v : jsval) n r :
  route_lookup m o v (attempts n r) = route_lookup m o v r.
Proof. unfold route_lookup. now rewrite attempts_path, attempts_method. Qed.


End Deferral.

(** ** Registration *)

Lemma array_indexOf_from_range (i : Z) (l : list string) (x : string) :
  In x l -> i <= array_indexOf_from i l x.
Proof.
  revert i. induction l as [|y l IH]; intros i H; [contradiction|].
  simpl. destruct (String.eqb_spec y x) as [|N]; [lia|].
  destruct H as [H|H]; [contradiction|]. specialize (IH (i + 1) H). lia.
Qed.

Lemma array_indexOf_In (l : list string) (x : string) :
  In x l -> (array_indexOf l x =? -1) = false.
Proof.
  intros H. apply Z.eqb_neq. pose proof (array_indexOf_from_range 0 l x H).
  unfold array_indexOf. lia.
Qed.


(** ** Decimal rendering and parsing agree *)

Lemma digits_value_acc (d : Decimal.uint) (acc : positive) :
  digits_value (Z.pos acc) (NilEmpty.string_of_uint d)
  = Z.pos (Pos.of_uint_acc d acc).
Proof.
  revert acc. induction d; intros acc; simpl NilEmpty.string_of_uint;
    [reflexivity | ..];
    cbn [digits_value Pos.of_uint_acc];
    match goal with
    | |- context [is_digit ?c] => change (is_digit c) with true; cbv iota
    end;
    rewrite <- IHd; f_equal;
    match goal with
    | |- context [digit_value ?c] =>
        let k := eval vm_compute in (digit_value c) in
        change (digit_value c) with k
    end; lia.
Qed.

Lemma digits_value_of_uint (d : Decimal.uint) :
  digits_value 0 (NilEmpty.string_of_uint d) = Z.of_N (Pos.of_uint d).
Proof.
  induction d; simpl NilEmpty.string_of_uint; [reflexivity | ..];
    cbn [digits_value Pos.of_uint];
    match goal with
    | |- context [is_digit ?c] => change (is_digit c) with true; cbv iota
    end;
    [exact IHd | ..];
    match goal with
    | |- digits_value ?a _ = _ =>
        let a' := eval cbv in a in change a with a'
    end;
    rewrite digits_value_acc; reflexivity.
Qed.

Lemma to_uint_not_Nil (p : positive) : Pos.to_uint p <> Decimal.Nil.
Proof.
  intros E. pose proof (Unsigned.of_to p) as H. rewrite E in H. discriminate.
Qed.

Lemma Z_to_string_pos (p : positive) :
  Z.pos p <= two53 ->
  Z_to_string (Z.pos p) = NilEmpty.string_of_uint (Pos.to_uint p).
Proof.
  intros L. rewrite Z_to_string_safe by (simpl Z.abs; exact L).
  simpl. unfold NilZero.string_of_uint.
  pose proof (to_uint_not_Nil p). now destruct (Pos.to_uint p).
Qed.

Lemma digits_value_Z_to_string (n : Z) :
  0 <= n <= two53 -> digits_value 0 (Z_to_string n) = n.
Proof.
  intros H. destruct n as [|p|p]; [reflexivity | | lia].
  rewrite Z_to_string_pos by lia.
  now rewrite digits_value_of_uint, Unsigned.of_to.
Qed.

Lemma Z_to_string_digits (n : Z) :
  0 <= n <= two53 ->
  Z_to_string n <> "" /\ string_forallb is_digit (Z_to_string n) = true.
Proof.
  intros H. destruct n as [|p|p]; [split; [discriminate | reflexivity] | | lia].
  rewrite Z_to_string_pos by lia. split; [|apply string_of_uint_digits].
  pose proof (to_uint_not_Nil p). destruct (Pos.to_uint p); try contradiction; discriminate.
Qed.

(** Up to [2^53], [parseInt] reads back what [toString] writes. *)
Lemma parseInt_Z_to_string (n : Z) :
  0 <= n <= two53 -> parseInt (Z_to_string n) = Int n.
Proof.
  intros H. destruct (Z_to_string_digits n H) as [N D].
  rewrite (parseInt_digits _ N D), digits_value_Z_to_string by exact H.
  apply Number_of_Z_safe. lia.
Qed.

(** ** The header [application/vnd.<token>.v<digits>+json] *)

Lemma span_all (p : ascii -> bool) (s : string) :
  string_forallb p s = true -> span p s = (s, "").
Proof.
  intros H. rewrite <- (append_empty_r s) at 1.
  rewrite (span_forallb_append p s "" H). simpl. now rewrite append_empty_r.
Qed.

Lemma indexOf_from_startsWith (i : Z) (s p : string) :
  startsWith s p = true -> indexOf_from i s p = i.
Proof. intros H. destruct s; simpl; now rewrite H. Qed.

Lemma indexOf_from_found (i : Z) (a p b : string) :
  0 <= i -> 0 <= indexOf_from i (a ++ p ++ b) p.
Proof.
  revert i. induction a as [|c a IH]; intros i H.
  - simpl append. rewrite indexOf_from_startsWith; [lia | apply startsWith_append].
  - simpl. destruct (startsWith _ p); [lia | apply IH; lia].
Qed.

Lemma last_char_append (c : ascii) (a b : string) :
  b <> "" ->
  MediaType.last_char_is c (a ++ b) = MediaType.last_char_is c b.
Proof.
  intros N. unfold MediaType.last_char_is. induction a as [|x a IH]; [reflexivity|].
  simpl append. simpl String.length.
  destruct (String.length (a ++ b)) as [|n] eqn:L.
  - exfalso. rewrite length_append in L. destruct b; [contradiction | simpl in L; lia].
  - rewrite <- IH. simpl. now rewrite Nat.sub_0_r.
Qed.

Lemma alnum_subtype_char (c : ascii) :
  is_alnum c = true -> MediaType.is_subtype_char c = true.
Proof. unfold MediaType.is_subtype_char. now intros ->. Qed.

Lemma subtype_char_not_semicolon (c : ascii) :
  MediaType.is_subtype_char c = true -> negb (Ascii.eqb c ";") = true.
Proof. destruct (Ascii.eqb_spec c ";"); [subst c; discriminate | reflexivity]. Qed.

Lemma alnum_not_plus (c : ascii) : is_alnum c = true -> negb (Ascii.eqb c "+") = true.
Proof. destruct (Ascii.eqb_spec c "+"); [subst c; discriminate | reflexivity]. Qed.

(** The media type [application/vnd.<token>.v<digits>+json]. *)
Lemma fromString_versioned (token digits : string) :
  string_forallb is_alnum token = true ->
  string_forallb is_digit digits = true ->
  strlen token + strlen digits <= 116 ->
  MediaType.fromString ("application/vnd." ++ token ++ ".v" ++ digits ++ "+json")
  = MediaType.mk (Some "application") (Some ("vnd." ++ token ++ ".v" ++ digits))
      ["vnd"; token; "v" ++ digits] (Some "json").
Proof.
  intros T D L.
  assert (Da : string_forallb is_alnum digits = true).
  { apply (forallb_impl is_digit); [apply digit_alnum | exact D]. }
  set (sub := "vnd." ++ token ++ ".v" ++ digits ++ "+json").
  assert (C : string_forallb MediaType.is_subtype_char sub = true).
  { unfold sub. simpl. rewrite forallb_append. simpl. rewrite forallb_append. simpl.
    rewrite (forallb_impl is_alnum _ token alnum_subtype_char T).
    now rewrite (forallb_impl is_alnum _ digits alnum_subtype_char Da). }
  assert (Len : strlen sub = strlen token + strlen digits + 11).
  { unfold sub. rewrite !strlen_append. change (strlen "vnd.") with 4.
    change (strlen ".v") with 2. change (strlen "+json") with 5. lia. }
  unfold MediaType.fromString.
  change ("application/vnd." ++ token ++ ".v" ++ digits ++ "+json")
    with ("application" ++ String "/" sub).
  rewrite span_forallb_append by reflexivity.
  simpl span. cbn [fst snd]. rewrite append_empty_r. cbv iota beta.
  rewrite (span_all _ sub)
    by (apply (forallb_impl MediaType.is_subtype_char);
        [apply subtype_char_not_semicolon | exact C]).
  rewrite C, Len.
  replace (1 <=? strlen token + strlen digits + 11) with true
    by (symmetry; apply Z.leb_le; pose proof (strlen_nonneg token);
        pose proof (strlen_nonneg digits); lia).
  replace (strlen token + strlen digits + 11 <=? 127) with true
    by (symmetry; apply Z.leb_le; lia).
  simpl andb. cbv iota.
  unfold MediaType.setSubtypeAndSuffix.
  assert (P : (0 <=? indexOf sub "+") = true).
  { apply Z.leb_le. unfold indexOf, sub.
    replace ("vnd." ++ token ++ ".v" ++ digits ++ "+json")
      with (("vnd." ++ token ++ ".v" ++ digits) ++ "+" ++ "json")
      by (now rewrite !append_assoc).
    apply indexOf_from_found. lia. }
  assert (Q : MediaType.last_char_is "+" sub = false).
  { unfold sub.
    replace ("vnd." ++ token ++ ".v" ++ digits ++ "+json")
      with (("vnd." ++ token ++ ".v" ++ digits) ++ "+json")
      by (now rewrite !append_assoc).
    rewrite last_char_append by discriminate. reflexivity. }
  rewrite P, Q. simpl andb. cbv iota.
  assert (S : split "+" sub = ["vnd." ++ token ++ ".v" ++ digits; "json"]).
  { unfold sub.
    replace ("vnd." ++ token ++ ".v" ++ digits ++ "+json")
      with (("vnd." ++ token ++ ".v" ++ digits) ++ String "+" "json")
      by (now rewrite !append_assoc).
    rewrite split_at_separator; [reflexivity|].
    simpl. rewrite forallb_append. simpl.
    rewrite (forallb_impl is_alnum _ token alnum_not_plus T).
    now rewrite (forallb_impl is_alnum _ digits alnum_not_plus Da). }
  rewrite S. cbv zeta. cbn [nth nth_error].
  now rewrite (versioned_subtype_facets token digits T D).
Qed.

Lemma extractor_versioned_header (o : Options.t) (r : Request.t) (token : string) (n : Z) :
  Request.header "accept" r
  = Some ("application/vnd." ++ token ++ ".v" ++ Z_to_string n ++ "+json") ->
  token <> "" -> string_forallb is_alnum token = true ->
  0 <= n <= two53 -> strlen token + strlen (Z_to_string n) <= 116 ->
  Options.vendorName o = Some token ->
  _extractVersionFromAcceptHeader r o = Normal (VNum (Int n)).
Proof.
  intros H TN T N L G.
  destruct (Z_to_string_digits n N) as [DN D].
  pose proof (fromString_versioned token (Z_to_string n) T D L) as F.
  rewrite (extractor_version o r _ token (Z_to_string n) H); try assumption.
  - rewrite digits_value_Z_to_string by exact N.
    rewrite Number_of_Z_safe by lia. reflexivity.
  - now rewrite F.
  - now rewrite F.
Qed.

(** ** Registration keeps the instance count *)

Lemma register_count (server : Server.t) (raw : RawOptions.t) :
  ServerPlugin.count (server_slot server)
  = Z.of_nat (List.length (Server.onRequest_exts server)) ->
  ServerPlugin.count (server_slot (fst (register server raw)))
  = Z.of_nat (List.length (Server.onRequest_exts (fst (register server raw)))).
Proof.
  intros H. unfold register. destruct (Joi_validate raw) as [errs|o]; [exact H|].
  fold (server_slot server). destruct (negb _); simpl; [exact H|].
  rewrite length_app, Nat2Z.inj_add. simpl List.length.
  change (ServerPlugin.count (default ServerPlugin.initial
            (Some {| ServerPlugin.count := ServerPlugin.count (server_slot server) + 1;
                     ServerPlugin.descriptors :=
                       ServerPlugin.descriptors (server_slot server)
                       ++ [Options.descriptor o] |})))
    with (ServerPlugin.count (server_slot server) + 1).
  lia.
Qed.

Lemma register_all_count (raws : list RawOptions.t) (server : Server.t) :
  ServerPlugin.count (server_slot server)
  = Z.of_nat (List.length (Server.onRequest_exts server)) ->
  ServerPlugin.count (server_slot (fst (register_all server raws)))
  = Z.of_nat (List.length (Server.onRequest_exts (fst (register_all server raws)))).
Proof.
  revert server. induction raws as [|raw raws IH]; intros server H; [exact H|].
  simpl. pose proof (register_count server raw H) as H'.
  destruct (register server raw) as [server' [e|]]; [exact H' | now apply IH].
Qed.

Lemma register_validated (server : Server.t) (raw : RawOptions.t) (o : Options.t) :
  In o (Server.onRequest_exts (fst (register server raw))) ->
  In o (Server.onRequest_exts server) \/ Joi_validate raw = inr o.
Proof.
  unfold register. destruct (Joi_validate raw) as [errs|o']; [now left|].
  destruct (negb _); simpl; [now left|].
  intros H. apply in_app_or in H as [H|[<-|[]]]; [now left | now right].
Qed.


Lemma register_all_validated (raws : list RawOptions.t) (server : Server.t)
  (o : Options.t) :
  In o (Server.onRequest_exts (fst (register_all server raws))) ->
  In o (Server.onRequest_exts server)
  \/ exists raw, In raw raws /\ Joi_validate raw = inr o.
Proof.
  revert server. induction raws as [|raw raws IH]; intros server H; [now left|].
  simpl in H. pose proof (register_validated server raw o) as V.
  destruct (register server raw) as [server' [e|]]; simpl in *.
  - destruct (V H) as [I|J]; [now left | right; exists raw; split; [now left | exact J]].
  - destruct (IH server' H) as [I|[raw' [I J]]].
    + destruct (V I) as [I'|J]; [now left | right; exists raw; split; [now left | exact J]].
    + right. exists raw'. split; [now right | exact J].
Qed.

(** The options of 'Multiple plugin registration' as the test suite writes
    them give both instances the default descriptor, and the second
    registration is refused; the scenarios above use the descriptors of the
    README instead. *)
Example default_descriptor_is_taken :
  snd (register_all (new_server ["/api/v1/versioned"])
         [accept_api_raw;
          with_basePath "/api/" (with_getVersion query_getVersion (raw_options [1; 2] 1))])
  = Some (Error (duplicate_descriptor_message "mediatype")).
Proof. reflexivity. Qed.

(** The regular expression lets any character follow [vnd]; when the
    vendor name itself reads [v<digits>] the third facet is missing and
    the extractor throws. *)
Example extractor_throws_on_lax_match :
  Joi_validate (with_vendorName "v2" (raw_options [1; 2] 1)) = inr lax_vendor_options
  /\ _extractVersionFromAcceptHeader
       (get_request "/versioned" [("accept", "application/vnd-v2.v2+json")])
       lax_vendor_options
     = Thrown "TypeError: Cannot read property 'replace' of undefined".
Proof. split; reflexivity. Qed.

(* ================================================================== *)

(** ** The version-qualified path *)

Lemma drop_length_append (a b : string) : drop (String.length a) (a ++ b) = b.
Proof. induction a as [|c a IH]; [reflexivity | exact IH]. Qed.

Lemma slice_strlen_append (a b : string) : slice (strlen a) (a ++ b) = b.
Proof.
  unfold slice, strlen. destruct (Z.ltb_spec (Z.of_nat (String.length a)) 0); [lia|].
  rewrite Nat2Z.id. apply drop_length_append.
Qed.

(** For a base path that ends in [/], the path that the handler computes
    is the version-qualified path. *)
Lemma versioned_version_qualified (o : Options.t) (z : Z) (b0 rest : string) :
  Options.basePath o = b0 ++ "/" ->
  versioned o (VNum (Int z)) (Options.basePath o ++ rest)
  = version_qualified (Options.basePath o) z rest.
Proof.
  intros B. unfold versioned, version_qualified. simpl to_string.
  do 3 f_equal. rewrite B at 1 2.
  replace (strlen (b0 ++ "/") - 1) with (strlen b0)
    by (rewrite strlen_append; unfold strlen; simpl; lia).
  rewrite append_assoc. apply slice_strlen_append.
Qed.

Lemma route_found_lookup m (o : Options.t) (r : Request.t) (z : Z) (b0 rest : string) :
  Options.basePath o = b0 ++ "/" ->
  Request.path r = Options.basePath o ++ rest ->
  route_found m (Request.method r)
    (version_qualified (Options.basePath o) z rest)
    (version_prefix (Options.basePath o) z) = true ->
  route_lookup m o (VNum (Int z)) r = Normal true.
Proof.
  intros B P. unfold route_found, route_lookup.
  rewrite P, (versioned_version_qualified o z b0 rest B).
  destruct (m _ _) as [[route|]|e]; try discriminate.
  unfold bind, version_prefix. cbn [to_string]. now intros ->.
Qed.

Lemma no_route_found_lookup m (o : Options.t) (r : Request.t) (z : Z) (b0 rest : string) :
  Options.basePath o = b0 ++ "/" ->
  Request.path r = Options.basePath o ++ rest ->
  no_route_found m (Request.method r)
    (version_qualified (Options.basePath o) z rest)
    (version_prefix (Options.basePath o) z) = true ->
  route_lookup m o (VNum (Int z)) r = Normal false.
Proof.
  intros B P. unfold no_route_found, route_lookup.
  rewrite P, (versioned_version_qualified o z b0 rest B).
  destruct (m _ _) as [[route|]|e]; try discriminate; [|reflexivity].
  unfold bind, version_prefix. cbn [to_string].
  intros H. apply negb_true_iff in H. now rewrite H.
Qed.

Lemma router_error_lookup m (o : Options.t) (r : Request.t) (z : Z) (b0 rest e : string) :
  Options.basePath o = b0 ++ "/" ->
  Request.path r = Options.basePath o ++ rest ->
  m (Request.method r) (version_qualified (Options.basePath o) z rest) = Thrown e ->
  route_lookup m o (VNum (Int z)) r = Thrown e.
Proof.
  intros B P H. unfold route_lookup.
  now rewrite P, (versioned_version_qualified o z b0 rest B), H.
Qed.

(** The rewritten request, when the URL is the path and a query part and
    the connection takes the rewritten URL as it is written. *)
Lemma rewritten_taken_as_written (o : Options.t) (z : Z) (ud : bool)
  (r : Request.t) (b0 rest s : string) :
  Options.basePath o = b0 ++ "/" ->
  Request.path r = Options.basePath o ++ rest ->
  Request.url r = Request.path r ++ s ->
  taken_as_written (Request.connection r)
    (version_qualified (Options.basePath o) z rest) s ->
  Request.path (rewritten o (VNum (Int z)) ud r)
  = version_qualified (Options.basePath o) z rest
  /\ Request.url (rewritten o (VNum (Int z)) ud r)
     = version_qualified (Options.basePath o) z rest ++ s.
Proof.
  intros B P U [T1 [T2 T3]].
  assert (E : versioned o (VNum (Int z)) (Request.url r)
              = version_qualified (Options.basePath o) z rest ++ s).
  { rewrite U, P, append_assoc.
    rewrite (versioned_version_qualified o z b0 (rest ++ s) B).
    unfold version_qualified. now rewrite !append_assoc. }
  unfold rewritten. simpl. rewrite E. split.
  - now rewrite T2, T3.
  - exact T1.
Qed.

(** Such a rewrite changes the URL: the rewritten URL is longer. *)
Lemma rewritten_changes_url (o : Options.t) (z : Z) (ud : bool)
  (r : Request.t) (b0 rest s : string) :
  Options.basePath o = b0 ++ "/" ->
  Request.path r = Options.basePath o ++ rest ->
  Request.url r = Request.path r ++ s ->
  taken_as_written (Request.connection r)
    (version_qualified (Options.basePath o) z rest) s ->
  rewrote r (rewritten o (VNum (Int z)) ud r) = true.
Proof.
  intros B P U W.
  destruct (rewritten_taken_as_written o z ud r b0 rest s B P U W) as [_ Q].
  unfold rewrote. apply negb_true_iff, String.eqb_neq.
  rewrite Q, U, P. intros E. apply (f_equal strlen) in E.
  unfold version_qualified in E. rewrite !strlen_append in E.
  pose proof (strlen_nonneg (Z_to_string z)) as N.
  change (strlen "v") with 1 in E. change (strlen "/") with 1 in E. lia.
Qed.

(* ================================================================== *)
(** * The properties of the specification *)
(* ================================================================== *)

(** ** Routing a valid version *)

(** C1, on an input where the code departs from it. One instance reads
    the Accept header, the valid versions are 1 and 2, and the route
    [/v1/versioned/{id}] is registered. The request [GET /versioned/%zz]
    asks for version 1 in its Accept header: the instance examines it and
    extracts the valid version 1. The router, asked for
    [/v1/versioned/%zz], throws, the handler does not catch the error, and
    the request fails: the path is neither rewritten nor is the request
    left to go on unchanged without an error. *)
Theorem router_error_escapes_the_handler :
  let sp := server_slot parameter_server in
  let m := Server.match_ parameter_server in
  let o := instance 0 parameter_server in
  let r := undecodable_request in
  examines o r = true
  /\ extracted o r = Normal (VNum (Int 1))
  /\ In 1 (Options.validVersions o)
  /\ m (Request.method r) (version_qualified (Options.basePath o) 1 "versioned/%zz")
     = Thrown "Invalid path: /v1/versioned/%zz"
  /\ onRequest sp m o r = Thrown "Invalid path: /v1/versioned/%zz"
  /\ run_onRequest parameter_server r = Thrown "Invalid path: /v1/versioned/%zz".
Proof.
  cbv zeta. repeat split; try reflexivity. simpl. auto.
Qed.

(** ** Refusing an invalid version *)

(** C2, amended. An instance examines a request and its extraction
    yields a candidate that is truthy (not [null], [undefined], [0], [NaN],
    the empty string or [false]) and not a member of [validVersions]; this
    covers negative numbers and non-empty strings from a callback, and the
    sentinel [-1] of the media-type extractor when [-1] is not a valid
    version. When [invalidVersionErrorCode] is a status that Boom takes
    (400 or above), the handler replies with it and with the message that
    lists the valid versions, which ends the chain, and the URL and the
    path of the request are unchanged. *)
Theorem invalid_version_is_refused sp m o exts r v :
  examines o r = true ->
  extracted o r = Normal v ->
  truthy v = true ->
  Hoek_contain (Options.validVersions o) v = false ->
  400 <= Options.invalidVersionErrorCode o ->
  exists r',
    onRequest sp m o r
    = Normal (r',
              reply_error (Options.invalidVersionErrorCode o)
                ("Invalid api-version. Valid values: "
                 ++ join "," (map Z_to_string (Options.validVersions o))))
    /\ run_exts sp m (o :: exts) r
       = Normal (r',
                 reply_error (Options.invalidVersionErrorCode o)
                   ("Invalid api-version. Valid values: "
                    ++ join "," (map Z_to_string (Options.validVersions o))))
    /\ Request.url r' = Request.url r
    /\ Request.path r' = Request.path r.
Proof.
  intros X E T V B. exists (attempt r).
  pose proof (onRequest_invalid_status sp m o r v X E T V B) as H.
  split; [exact H|]. split; [|now split].
  simpl run_exts. rewrite H. reflexivity.
Qed.

(** 'returns a 415 if invalid api version is requested'. *)
Lemma invalid_version_is_refused_witness :
  exists r',
    onRequest (server_slot mediatype_server) (Server.match_ mediatype_server)
      (instance 0 mediatype_server)
      (get_request "/versioned" [("accept", "application/vnd.mysuperapi.v3+json")])
    = Normal (r', reply_error 415 "Invalid api-version. Valid values: 1,2")
    /\ run_exts (server_slot mediatype_server) (Server.match_ mediatype_server)
         [instance 0 mediatype_server]
         (get_request "/versioned" [("accept", "application/vnd.mysuperapi.v3+json")])
       = Normal (r', reply_error 415 "Invalid api-version. Valid values: 1,2")
    /\ Request.url r' = "/versioned"
    /\ Request.path r' = "/versioned".
Proof.
  refine (invalid_version_is_refused
            (server_slot mediatype_server) (Server.match_ mediatype_server)
            (instance 0 mediatype_server) []
            (get_request "/versioned" [("accept", "application/vnd.mysuperapi.v3+json")])
            (VNum (Int 3)) _ _ _ _ _);
    try (vm_compute; reflexivity).
  vm_compute. discriminate.
Defined.

(** C2 as stated fails for a falsy candidate. With the README's callback
    [parseInt(request.query.version, 10)] and [?version=abc] the candidate
    is [NaN]: present, not [null], not a valid version. The handler takes
    it for "no version", applies the default and rewrites the URL; no
    error is sent. Two more cases: the sentinel [-1] is a member of
    [validVersions: [-1, 1]] and is then routed, not refused; and with
    [invalidVersionErrorCode: 302], which the schema accepts, the handler
    throws in [Boom.create] where it should reply. *)
Lemma falsy_candidate_is_not_refused :
  let sp := server_slot readme_server in
  let m := Server.match_ readme_server in
  let o := instance 0 readme_server in
  let r := get_request "/versioned?version=abc" [] in
  (examines o r = true
   /\ extracted o r = Normal (VNum NaN)
   /\ Hoek_contain (Options.validVersions o) (VNum NaN) = false
   /\ onRequest sp m o r
      = Normal (plain_request "get" [] "/v1/versioned?version=abc"
                  (Some (RequestPlugin.mk (VNum (Int 1)) true 1 (Some "default"))),
                reply_continue)
   /\ ~ (exists r' statusCode message,
           onRequest sp m o r = Normal (r', reply_error statusCode message)))
  /\ (extracted (instance 0 negative_version_server)
        (get_request "/versioned" [("accept", "text/html")])
      = Normal (VNum (Int (-1)))
      /\ In (-1) (Options.validVersions (instance 0 negative_version_server))
      /\ exists r',
           run_onRequest negative_version_server
             (get_request "/versioned" [("accept", "text/html")])
           = Normal (r', reply_continue)
           /\ Request.url r' = "/v-1/versioned")
  /\ (Options.invalidVersionErrorCode (instance 0 low_status_server) = 302
      /\ extracted (instance 0 low_status_server)
           (get_request "/versioned" [("accept", "application/vnd.mysuperapi.v3+json")])
         = Normal (VNum (Int 3))
      /\ onRequest (server_slot low_status_server) (Server.match_ low_status_server)
           (instance 0 low_status_server)
           (get_request "/versioned" [("accept", "application/vnd.mysuperapi.v3+json")])
         = Thrown "First argument must be a number (400+): 302").
Proof.
  cbv zeta. split; [|split].
  - repeat split; try reflexivity.
    intros [r' [c [msg H]]]. vm_compute in H. discriminate H.
  - split; [reflexivity|]. split; [simpl; auto|].
    eexists. split; [vm_compute; reflexivity | reflexivity].
  - repeat split; reflexivity.
Qed.

(** ** Falling back to the default version *)




(** ** One rewrite per request *)




(** ** Two instances: Accept header, then query parameter *)




(** ** The media-type extractor *)

(** C6, amended. The media-type extractor returns [null] when the Accept
    header is absent or empty. It returns the sentinel [-1] when the header
    is malformed: the media type is invalid, or its subtype fails the
    regular expression, or the second facet differs from [vendorName]. The
    sentinel is truthy and fails validation for every [validVersions] that
    does not contain [-1]. When the media type is valid, its subtype is
    [vnd.<token>.v<digits>] with letters and digits for the token, and the
    token is [vendorName], it returns the number that the digits denote in
    base 10, as [parseInt] gives it: rounded to the nearest double. So for
    the header [application/vnd.<vendorName>.v<n>+json], with [n] a natural
    number up to [2^53] in decimal, it returns [n]. *)
Theorem media_type_extractor (o : Options.t) (r : Request.t) :
  (Request.header "accept" r = None \/ Request.header "accept" r = Some "" ->
   _extractVersionFromAcceptHeader r o = Normal VNull)
  /\ (forall h,
        Request.header "accept" r = Some h -> h <> "" -> malformed_accept o h ->
        _extractVersionFromAcceptHeader r o = Normal (VNum (Int (-1))))
  /\ (forall validVersions,
        ~ In (-1) validVersions ->
        truthy (VNum (Int (-1))) = true
        /\ Hoek_contain validVersions (VNum (Int (-1))) = false)
  /\ (forall h token digits,
        Request.header "accept" r = Some h ->
        MediaType.isValid (MediaType.fromString h) = true ->
        MediaType.subtype (MediaType.fromString h)
        = Some ("vnd." ++ token ++ ".v" ++ digits) ->
        token <> "" -> string_forallb is_alnum token = true ->
        digits <> "" -> string_forallb is_digit digits = true ->
        Options.vendorName o = Some token ->
        _extractVersionFromAcceptHeader r o
        = Normal (VNum (Number_of_Z (digits_value 0 digits))))
  /\ (forall token n,
        Request.header "accept" r
        = Some ("application/vnd." ++ token ++ ".v" ++ Z_to_string n ++ "+json") ->
        token <> "" -> string_forallb is_alnum token = true ->
        0 <= n <= two53 -> strlen token + strlen (Z_to_string n) <= 116 ->
        Options.vendorName o = Some token ->
        _extractVersionFromAcceptHeader r o = Normal (VNum (Int n))).
Proof.
  split; [|split; [|split; [|split]]].
  - unfold _extractVersionFromAcceptHeader. now intros [-> | ->].
  - intros h. apply extractor_malformed.
  - apply sentinel_invalid.
  - intros h token digits. apply extractor_version.
  - intros token n. apply extractor_versioned_header.
Qed.

(** No header, a wrong vendor name, and version 2 of the test suite. *)
Lemma media_type_extractor_witness :
  _extractVersionFromAcceptHeader (get_request "/versioned" [])
    (instance 0 mediatype_server) = Normal VNull
  /\ _extractVersionFromAcceptHeader
       (get_request "/versioned" [("accept", "application/vnd.someinvalidapi.v2+json")])
       (instance 0 mediatype_server) = Normal (VNum (Int (-1)))
  /\ Hoek_contain [1; 2] (VNum (Int (-1))) = false
  /\ _extractVersionFromAcceptHeader (get_request "/versioned" accept_v2)
       (instance 0 mediatype_server) = Normal (VNum (Int 2)).
Proof.
  split; [|split; [|split]].
  - apply (proj1 (media_type_extractor (instance 0 mediatype_server)
                    (get_request "/versioned" []))).
    left. reflexivity.
  - apply (proj1 (proj2 (media_type_extractor (instance 0 mediatype_server)
                           (get_request "/versioned"
                              [("accept", "application/vnd.someinvalidapi.v2+json")])))
             "application/vnd.someinvalidapi.v2+json").
    + reflexivity.
    + discriminate.
    + right. right. vm_compute. discriminate.
  - apply (proj1 (proj2 (proj2 (media_type_extractor (instance 0 mediatype_server)
                                  (get_request "/versioned" []))))
             [1; 2]).
    simpl. intros [H|[H|[]]]; discriminate.
  - apply (proj2 (proj2 (proj2 (proj2 (media_type_extractor
                                         (instance 0 mediatype_server)
                                         (get_request "/versioned" accept_v2)))))
             "mysuperapi" 2);
      try (vm_compute; reflexivity); [discriminate | | vm_compute; discriminate].
    unfold two53. lia.
Defined.

(** C6 as stated fails where the sentinel is a valid version and where the
    header is empty. The schema accepts [validVersions: [-1, 1]]; the
    header [text/html] yields the sentinel [-1], which then passes
    validation, and the request is rewritten to [/v-1/versioned]. An empty
    Accept header is not a valid media type, yet the extractor returns
    [null] for it. And the candidate is the double nearest to the integer
    that the digits denote: for [v9007199254740993] it is
    [9007199254740992]. *)
Lemma sentinel_can_be_valid :
  let o := instance 0 negative_version_server in
  let r := get_request "/versioned" [("accept", "text/html")] in
  _extractVersionFromAcceptHeader r o = Normal (VNum (Int (-1)))
  /\ Hoek_contain (Options.validVersions o) (VNum (Int (-1))) = true
  /\ run_onRequest negative_version_server r
     = Normal (plain_request "get" [("accept", "text/html")] "/v-1/versioned"
                 (Some (RequestPlugin.mk (VNum (Int (-1))) false 1 (Some "mediatype"))),
               reply_continue)
  /\ MediaType.isValid (MediaType.fromString "") = false
  /\ _extractVersionFromAcceptHeader (get_request "/versioned" [("accept", "")]) o
     = Normal VNull
  /\ _extractVersionFromAcceptHeader
       (get_request "/versioned"
          [("accept", "application/vnd.mysuperapi.v9007199254740993+json")]) o
     = Normal (VNum (Int 9007199254740992)).
Proof. cbv zeta. repeat split; reflexivity. Qed.

(** ** What a rewrite preserves *)

(** C7, on an input where the code departs from it. One instance is
    registered under the base path [/api/], with the route
    [/api/v1/versioned]. For [GET /%61pi/versioned] hapi presents the
    normalized path [/api/versioned], which is under the base path, and
    keeps the URL as it was sent. The handler looks up
    [/api/v1/versioned], finds the route, and then cuts the URL as sent at
    the length of the base path: whatever the connection, it sets the URL
    [/api/v1pi/versioned], where the segment after the version prefix
    reads [pi] and no longer [versioned] alone. *)
Theorem raw_url_is_cut_at_the_normalized_length (c : Connection.t) :
  let sp := server_slot api_server in
  let m := Server.match_ api_server in
  let o := instance 0 api_server in
  let r := escaped_request c in
  Options.basePath o = "/api/"
  /\ Request.url r = "/%61pi/versioned"
  /\ Request.path r = "/api/versioned"
  /\ examines o r = true
  /\ versioned o (VNum (Int 1)) (Request.path r) = "/api/v1/versioned"
  /\ route_found m "get" "/api/v1/versioned" "/api/v1/" = true
  /\ versioned o (VNum (Int 1)) (Request.url r) = "/api/v1pi/versioned"
  /\ onRequest sp m o r
     = Normal (Request.set_plugin
                 (Request.setUrl (attempt r) "/api/v1pi/versioned")
                 (RequestPlugin.mk (VNum (Int 1)) true 1 (Some "default")),
               reply_continue).
Proof. cbv zeta. repeat split; reflexivity. Qed.

(** ** Passive mode *)



(** ** What the validation errors report *)



(** ** Refused registrations *)




(** ** Passive mode and malformed headers *)

(** C10, amended. An instance in passive mode that uses the media-type
    extractor examines a request whose Accept header is present, not empty
    and malformed (invalid media type, subtype failing the regular
    expression, or second facet different from [vendorName]), [-1] is not
    a valid version and [invalidVersionErrorCode] is a status that Boom
    takes (400 or above). The handler replies with
    [invalidVersionErrorCode] and the URL is unchanged: passive mode only
    skips requests from which no version at all is extracted. *)
Theorem passive_mode_refuses_malformed_accept sp m o r h :
  Options.passiveMode o = true ->
  Options.getVersion o = None ->
  examines o r = true ->
  Request.header "accept" r = Some h ->
  h <> "" ->
  malformed_accept o h ->
  ~ In (-1) (Options.validVersions o) ->
  400 <= Options.invalidVersionErrorCode o ->
  exists r',
    onRequest sp m o r
    = Normal (r',
              reply_error (Options.invalidVersionErrorCode o)
                (invalid_version_message (Options.validVersions o)))
    /\ Request.url r' = Request.url r.
Proof.
  intros _ G X H N M V B. exists (attempt r). split; [|reflexivity].
  destruct (sentinel_invalid _ V) as [T C].
  apply (onRequest_invalid_status sp m o r (VNum (Int (-1))) X);
    [|exact T|exact C|exact B].
  unfold extracted, requested_version. rewrite G.
  now apply (extractor_malformed o (attempt r) h).
Qed.

(** Passive mode and a wrong vendor name. *)
Lemma passive_mode_refuses_malformed_accept_witness :
  exists r',
    onRequest (server_slot passive_server) (Server.match_ passive_server)
      (instance 0 passive_server)
      (get_request "/versioned" [("accept", "application/vnd.someinvalidapi.v2+json")])
    = Normal (r', reply_error 415 "Invalid api-version. Valid values: 1,2")
    /\ Request.url r' = "/versioned".
Proof.
  refine (passive_mode_refuses_malformed_accept
            (server_slot passive_server) (Server.match_ passive_server)
            (instance 0 passive_server)
            (get_request "/versioned" [("accept", "application/vnd.someinvalidapi.v2+json")])
            "application/vnd.someinvalidapi.v2+json" _ _ _ _ _ _ _ _);
    try (vm_compute; reflexivity).
  - discriminate.
  - right. right. vm_compute. discriminate.
  - simpl. intros [H|[H|[]]]; discriminate.
  - vm_compute. discriminate.
Defined.

(** C10 as stated fails where [-1] is a valid version and where the header
    is empty. In passive mode with [validVersions: [-1, 1]] the malformed
    header [text/html] yields [-1], which is valid: the request is
    rewritten to [/v-1/versioned] and no error is sent. An empty Accept
    header is present and is not a valid media type, yet the extractor
    returns [null] and passive mode lets the request through. With
    [invalidVersionErrorCode: 302] the handler throws in [Boom.create]. *)
Lemma passive_mode_accepts_sentinel :
  let sp := server_slot negative_passive_server in
  let m := Server.match_ negative_passive_server in
  let o := instance 0 negative_passive_server in
  let r := get_request "/versioned" [("accept", "text/html")] in
  let r0 := get_request "/versioned" [("accept", "")] in
  Options.passiveMode o = true
  /\ examines o r = true
  /\ malformed_accept o "text/html"
  /\ onRequest sp m o r
     = Normal (plain_request "get" [("accept", "text/html")] "/v-1/versioned"
                 (Some (RequestPlugin.mk (VNum (Int (-1))) false 1 (Some "mediatype"))),
               reply_continue)
  /\ Request.header "accept" r0 = Some ""
  /\ malformed_accept (instance 0 passive_server) ""
  /\ onRequest (server_slot passive_server) (Server.match_ passive_server)
       (instance 0 passive_server) r0
     = Normal (attempt r0, reply_continue)
  /\ Options.passiveMode (instance 0 low_status_passive_server) = true
  /\ Options.invalidVersionErrorCode (instance 0 low_status_passive_server) = 302
  /\ onRequest (server_slot low_status_passive_server)
       (Server.match_ low_status_passive_server)
       (instance 0 low_status_passive_server) r
     = Thrown "First argument must be a number (400+): 302".
Proof.
  cbv zeta. repeat split; try reflexivity.
  - right. left. reflexivity.
  - left. reflexivity.
Qed.

(* ================================================================== *)
(** * Further properties of the code *)
(* ================================================================== *)

(** ** What a handler does to a request *)

(** The four ways a handler returns: with the request as it came (out of
    scope, or already claimed), with the request counted in, or with the
    request rewritten, to an extracted version or to the default. *)
Lemma onRequest_cases sp m o r r' rp :
  onRequest sp m o r = Normal (r', rp) ->
  (examines o r = false /\ r' = r /\ rp = reply_continue)
  \/ (examines o r = true /\ r' = attempt r
      /\ Request.url r' = Request.url r)
  \/ (examines o r = true /\ rp = reply_continue
      /\ exists v,
           extracted o r = Normal v /\ truthy v = true
           /\ Hoek_contain (Options.validVersions o) v = true
           /\ versioned_route_exists m o v r = true
           /\ r' = rewritten o v false r)
  \/ (examines o r = true /\ rp = reply_continue
      /\ Options.passiveMode o = false
      /\ RequestPlugin.count (slot r) + 1 = ServerPlugin.count sp
      /\ (exists v, extracted o r = Normal v /\ truthy v = false)
      /\ versioned_route_exists m o (VNum (Int (Options.defaultVersion o))) r = true
      /\ r' = rewritten o (VNum (Int (Options.defaultVersion o))) true r).
Proof.
  intros H.
  destruct (examines o r) eqn:E.
  - rewrite (onRequest_examined sp m o r E) in H.
    destruct (extracted o r) as [v|e] eqn:X; simpl in H; [|discriminate].
    destruct (truthy v) eqn:T; cbn [negb andb] in H.
    + rewrite andb_false_r in H. cbn [andb] in H.
      destruct (Hoek_contain (Options.validVersions o) v) eqn:C; cbn [negb] in H.
      * destruct (route_lookup m o v r) as [[|]|e] eqn:V; cbn [bind] in H;
          [| |discriminate]; injection H as <- <-.
        -- right. right. left. repeat (split; [reflexivity|]).
           exists v. apply route_lookup_found in V.
           repeat split; assumption || reflexivity.
        -- right. left. repeat (split; [reflexivity|]). reflexivity.
      * destruct (Boom_create _ _) as [err|e]; simpl in H; [|discriminate].
        injection H as <- <-.
        right. left. repeat (split; [reflexivity|]). reflexivity.
    + rewrite andb_true_r in H.
      destruct (Options.passiveMode o) eqn:P.
      * injection H as <- <-. right. left.
        repeat (split; [reflexivity|]). reflexivity.
      * cbn [andb] in H.
        destruct (RequestPlugin.count (slot r) + 1 =? ServerPlugin.count sp) eqn:N;
          cbn [negb] in H.
        -- apply Z.eqb_eq in N.
           destruct (route_lookup m o (VNum (Int (Options.defaultVersion o))) r)
             as [[|]|e] eqn:V; cbn [bind] in H; [| |discriminate];
             injection H as <- <-.
           ++ right. right. right. repeat (split; [reflexivity|]).
              split; [exact N|]. split; [exists v; split; [reflexivity|exact T]|].
              apply route_lookup_found in V. split; [exact V | reflexivity].
           ++ right. left. repeat (split; [reflexivity|]). reflexivity.
        -- injection H as <- <-. right. left.
           repeat (split; [reflexivity|]). reflexivity.
  - left. unfold examines in E.
    destruct (in_scope o r) eqn:S.
    + destruct (claimed r) eqn:C; [|discriminate].
      rewrite (onRequest_claimed sp m o r S C) in H.
      injection H as <- <-. repeat split.
    + rewrite (onRequest_out_of_scope sp m o r S) in H.
      injection H as <- <-. repeat split.
Qed.

Lemma onRequest_count sp m o r r' rp :
  onRequest sp m o r = Normal (r', rp) ->
  RequestPlugin.count (slot r')
  = RequestPlugin.count (slot r) + (if examines o r then 1 else 0).
Proof.
  intros H. apply onRequest_cases in H.
  destruct H as [(E & -> & _)|[(E & -> & _)|[(E & _ & v & _ & _ & _ & _ & ->)
    |(E & _ & _ & _ & _ & _ & ->)]]]; rewrite E.
  - lia.
  - apply count_attempt.
  - reflexivity.
  - reflexivity.
Qed.

Lemma onRequest_frame sp m o r r' rp :
  onRequest sp m o r = Normal (r', rp) ->
  Request.method r' = Request.method r /\ Request.headers r' = Request.headers r.
Proof.
  intros H. apply onRequest_cases in H.
  destruct H as [(E & -> & _)|[(E & -> & _)|[(E & _ & v & _ & _ & _ & _ & ->)
    |(E & _ & _ & _ & _ & _ & ->)]]]; split; reflexivity.
Qed.

(** When a handler throws: the extraction threw, or [Boom.create] did, or
    the router did. *)
Lemma onRequest_throws sp m o r e :
  onRequest sp m o r = Thrown e ->
  examines o r = true
  /\ (extracted o r = Thrown e
      \/ (exists v,
            extracted o r = Normal v /\ truthy v = true
            /\ Hoek_contain (Options.validVersions o) v = false
            /\ Options.invalidVersionErrorCode o < 400
            /\ e = "First argument must be a number (400+): "
                   ++ Z_to_string (Options.invalidVersionErrorCode o))
      \/ (exists v,
            extracted o r = Normal v
            /\ (truthy v = true
                /\ Hoek_contain (Options.validVersions o) v = true
                \/ truthy v = false
                   /\ Options.passiveMode o = false
                   /\ RequestPlugin.count (slot r) + 1 = ServerPlugin.count sp)
            /\ m (Request.method r)
                 (versioned o
                    (if truthy v then v
                     else VNum (Int (Options.defaultVersion o)))
                    (Request.path r))
               = Thrown e)).
Proof.
  intros H.
  destruct (examines o r) eqn:E.
  - split; [reflexivity|].
    rewrite (onRequest_examined sp m o r E) in H.
    destruct (extracted o r) as [v|e'] eqn:X; cbn [bind] in H.
    + right. destruct (truthy v) eqn:T; cbn [negb andb] in H.
      * rewrite andb_false_r in H. cbn [andb] in H.
        destruct (Hoek_contain (Options.validVersions o) v) eqn:C;
          cbn [negb] in H.
        -- right. exists v. split; [reflexivity|]. split; [now left|].
           rewrite T. unfold route_lookup in H.
           destruct (m _ _) as [route|e'']; [discriminate|].
           cbn [bind] in H. injection H as ->. reflexivity.
        -- left. exists v. split; [reflexivity|].
           unfold Boom_create in H.
           destruct (400 <=? Options.invalidVersionErrorCode o) eqn:B;
             [discriminate|].
           apply Z.leb_gt in B. cbn [bind] in H. injection H as <-.
           repeat split; assumption.
      * right. exists v. split; [reflexivity|]. rewrite andb_true_r in H.
        destruct (Options.passiveMode o); [discriminate|]. cbn [andb] in H.
        destruct (Z.eqb_spec (RequestPlugin.count (slot r) + 1)
                    (ServerPlugin.count sp)) as [N|N]; cbn [negb] in H;
          [|discriminate].
        split; [right; now repeat split|].
        rewrite T. unfold route_lookup in H.
        destruct (m _ _) as [route|e'']; [discriminate|].
        cbn [bind] in H. injection H as ->. reflexivity.
    + left. injection H as ->. reflexivity.
  - unfold examines in E. destruct (in_scope o r) eqn:S.
    + destruct (claimed r) eqn:C; [|discriminate].
      rewrite (onRequest_claimed sp m o r S C) in H. discriminate.
    + rewrite (onRequest_out_of_scope sp m o r S) in H. discriminate.
Qed.

(** X1. A request whose path is under the base path of none of the
    instances passes the whole chain as it came: no slot is created, no
    attempt is counted, nothing is extracted, and every handler
    continues. *)
Theorem out_of_scope_chain_untouched sp m exts r :
  (forall o, In o exts -> in_scope o r = false) ->
  run_exts sp m exts r = Normal (r, reply_continue).
Proof.
  induction exts as [|o exts IH]; intros H; [reflexivity|].
  cbn [run_exts].
  rewrite onRequest_out_of_scope by (apply H; left; reflexivity).
  cbn [bind]. apply IH. intros o' I. apply H. right. exact I.
Qed.

(** 'returns no version for an unversioned route' of the multiple
    registration: [/unversioned] is outside [/api/]. *)
Lemma out_of_scope_chain_untouched_witness :
  run_onRequest multi_server (get_request "/unversioned" accept_v2)
  = Normal (get_request "/unversioned" accept_v2, reply_continue).
Proof.
  apply (out_of_scope_chain_untouched
           (server_slot multi_server) (Server.match_ multi_server)
           (Server.onRequest_exts multi_server)
           (get_request "/unversioned" accept_v2)).
  intros o [<-|[<-|[]]]; reflexivity.
Defined.

(** X2. For a request that carries no slot yet, a handler that returns
    leaves the request without a slot exactly when the request is out of
    its scope; an in-scope request leaves with a slot that counts at
    least one attempt, whether or not a versioned route exists. *)
Theorem slot_created_when_in_scope sp m o r r' rp :
  Request.plugins r = None ->
  onRequest sp m o r = Normal (r', rp) ->
  (Request.plugins r' = None <-> in_scope o r = false)
  /\ (in_scope o r = true -> 1 <= RequestPlugin.count (slot r')).
Proof.
  intros P H.
  assert (C : claimed r = false) by (unfold claimed, slot; rewrite P; reflexivity).
  destruct (in_scope o r) eqn:S.
  - assert (E : examines o r = true) by (unfold examines; rewrite S, C; reflexivity).
    pose proof (onRequest_count sp m o r r' rp H) as K. rewrite E in K.
    assert (K0 : RequestPlugin.count (slot r) = 0)
      by (unfold slot; rewrite P; reflexivity).
    split; [|intros _; lia].
    split; [|discriminate]. intros N. unfold slot in K at 1.
    rewrite N in K. cbn in K. lia.
  - rewrite (onRequest_out_of_scope sp m o r S) in H. injection H as <- <-.
    split; [|discriminate]. split; [reflexivity|intros _; exact P].
Qed.

(** An unversioned route under the root base path: the slot
    [{ count: 1, useDefault: true }] is left on the request. *)
Lemma slot_created_when_in_scope_witness :
  onRequest (server_slot mediatype_server) (Server.match_ mediatype_server)
    (instance 0 mediatype_server) (get_request "/unversioned" [])
  = Normal (plain_request "get" [] "/unversioned"
              (Some (RequestPlugin.mk VUndefined true 1 None)),
            reply_continue)
  /\ 1 <= RequestPlugin.count
            (slot (plain_request "get" [] "/unversioned"
                     (Some (RequestPlugin.mk VUndefined true 1 None)))).
Proof.
  split; [reflexivity|].
  apply (proj2 (slot_created_when_in_scope
                  (server_slot mediatype_server) (Server.match_ mediatype_server)
                  (instance 0 mediatype_server) (get_request "/unversioned" [])
                  _ reply_continue eq_refl eq_refl)).
  reflexivity.
Defined.

(** X3. Through a chain of handlers the attempt counter of the slot never
    decreases and grows by at most the number of handlers. *)
Theorem attempt_count_bounded sp m exts r r' rp :
  run_exts sp m exts r = Normal (r', rp) ->
  RequestPlugin.count (slot r) <= RequestPlugin.count (slot r')
  <= RequestPlugin.count (slot r) + Z.of_nat (List.length exts).
Proof.
  revert r. induction exts as [|o exts IH]; intros r H.
  - injection H as <- <-. cbn [List.length]. lia.
  - cbn [run_exts] in H.
    destruct (onRequest sp m o r) as [[r1 rp1]|e] eqn:O; cbn [bind] in H;
      [|discriminate].
    apply onRequest_count in O.
    assert (B : RequestPlugin.count (slot r) <= RequestPlugin.count (slot r1)
                <= RequestPlugin.count (slot r) + 1)
      by (destruct (examines o r); lia).
    cbn [List.length]. rewrite Nat2Z.inj_succ.
    destruct rp1.
    + apply IH in H. lia.
    + injection H as <- <-. lia.
Qed.

(** The query parameter alone, with two instances: both count. *)
Lemma attempt_count_bounded_witness :
  run_onRequest multi_server (get_request "/api/versioned?version=2" [])
  = Normal (plain_request "get" [] "/api/v2/versioned?version=2"
              (Some (RequestPlugin.mk (VNum (Int 2)) false 2 (Some "querystring"))),
            reply_continue)
  /\ 0 <= 2 <= 0 + 2.
Proof.
  split; [reflexivity|].
  apply (attempt_count_bounded
           (server_slot multi_server) (Server.match_ multi_server)
           (Server.onRequest_exts multi_server)
           (get_request "/api/versioned?version=2" [])
           (plain_request "get" [] "/api/v2/versioned?version=2"
              (Some (RequestPlugin.mk (VNum (Int 2)) false 2 (Some "querystring"))))
           reply_continue).
  reflexivity.
Defined.

(** X4. The handlers assign the URL and the slot only: whatever a chain
    returns, the method and the headers of the request are those it
    received. *)
Theorem chain_preserves_method_and_headers sp m exts r r' rp :
  run_exts sp m exts r = Normal (r', rp) ->
  Request.method r' = Request.method r /\ Request.headers r' = Request.headers r.
Proof.
  revert r. induction exts as [|o exts IH]; intros r H.
  - injection H as <- <-. split; reflexivity.
  - cbn [run_exts] in H.
    destruct (onRequest sp m o r) as [[r1 rp1]|e] eqn:O; cbn [bind] in H;
      [|discriminate].
    apply onRequest_frame in O. destruct O as [M Hd].
    destruct rp1.
    + apply IH in H. destruct H as [M' Hd']. split; congruence.
    + injection H as <- <-. split; assumption.
Qed.

Lemma chain_preserves_method_and_headers_witness :
  run_onRequest multi_server both_indications
  = Normal (plain_request "get" accept_v2 "/api/v2/versioned?version=1"
              (Some (RequestPlugin.mk (VNum (Int 2)) false 1 (Some "mediatype"))),
            reply_continue)
  /\ Request.method
       (plain_request "get" accept_v2 "/api/v2/versioned?version=1"
          (Some (RequestPlugin.mk (VNum (Int 2)) false 1 (Some "mediatype"))))
     = Request.method both_indications
  /\ Request.headers
       (plain_request "get" accept_v2 "/api/v2/versioned?version=1"
          (Some (RequestPlugin.mk (VNum (Int 2)) false 1 (Some "mediatype"))))
     = Request.headers both_indications.
Proof.
  split; [reflexivity|].
  apply (chain_preserves_method_and_headers
           (server_slot multi_server) (Server.match_ multi_server)
           (Server.onRequest_exts multi_server) both_indications _
           reply_continue).
  reflexivity.
Defined.

(** X5. A handler replies with an error in one case only: it examined the
    request, the extraction yielded a truthy candidate that is not in
    [validVersions], and the configured status code is 400 or above. The
    error then carries that code and the message listing the valid
    versions, and the request is the one counted in, its URL untouched. *)
Theorem error_reply_only_for_invalid_version sp m o r r' c msg :
  onRequest sp m o r = Normal (r', reply_error c msg) ->
  examines o r = true
  /\ (exists v, extracted o r = Normal v /\ truthy v = true
                /\ Hoek_contain (Options.validVersions o) v = false)
  /\ c = Options.invalidVersionErrorCode o /\ 400 <= c
  /\ msg = invalid_version_message (Options.validVersions o)
  /\ r' = attempt r.
Proof.
  intros H.
  destruct (examines o r) eqn:E.
  - rewrite (onRequest_examined sp m o r E) in H.
    destruct (extracted o r) as [v|e] eqn:X; simpl in H; [|discriminate].
    destruct (Options.passiveMode o && negb (truthy v)); [discriminate|].
    destruct (truthy v) eqn:T; cbn [negb andb] in H.
    + destruct (Hoek_contain (Options.validVersions o) v) eqn:C; cbn [negb] in H.
      { destruct (route_lookup m o v r) as [[|]|]; discriminate. }
      unfold Boom_create in H.
      destruct (400 <=? Options.invalidVersionErrorCode o) eqn:B; simpl in H;
        [|discriminate].
      injection H as <- <- <-. apply Z.leb_le in B.
      split; [reflexivity|]. split; [exists v; repeat split; assumption|].
      repeat split. exact B.
    + destruct (negb _); [discriminate|].
      cbv zeta in H. destruct (route_lookup m o _ r) as [[|]|]; discriminate.
  - apply onRequest_cases in H.
    destruct H as [(_ & _ & F)|[(F & _)|[(F & _)|(F & _)]]]; congruence.
Qed.

(** 'returns a 415 when invalid api version is requested'. *)
Lemma error_reply_only_for_invalid_version_witness :
  examines (instance 0 mediatype_server)
    (get_request "/versioned" [("accept", "text/html")]) = true
  /\ (exists v,
        extracted (instance 0 mediatype_server)
          (get_request "/versioned" [("accept", "text/html")]) = Normal v
        /\ truthy v = true
        /\ Hoek_contain (Options.validVersions (instance 0 mediatype_server)) v
           = false)
  /\ 415 = Options.invalidVersionErrorCode (instance 0 mediatype_server)
  /\ 400 <= 415
  /\ "Invalid api-version. Valid values: 1,2"
     = invalid_version_message (Options.validVersions (instance 0 mediatype_server))
  /\ plain_request "get" [("accept", "text/html")] "/versioned"
       (Some (RequestPlugin.mk VUndefined true 1 None))
     = attempt (get_request "/versioned" [("accept", "text/html")]).
Proof.
  apply (error_reply_only_for_invalid_version
           (server_slot mediatype_server) (Server.match_ mediatype_server)
           (instance 0 mediatype_server)
           (get_request "/versioned" [("accept", "text/html")])).
  reflexivity.
Defined.

(** X6. A handler throws in exactly three cases, all on a request it
    examines: the extraction throws (the callback is called outside any
    [try]); or the candidate is truthy and invalid while the configured
    status code is below 400, which [Boom.create] refuses with a message
    that ends with the code; or the instance goes on to the route check,
    with a valid candidate or, as the last instance to count itself in
    and not in passive mode, with the default version, and the router
    throws. *)
Theorem handler_throws_exactly sp m o r e :
  onRequest sp m o r = Thrown e <->
  examines o r = true
  /\ (extracted o r = Thrown e
      \/ (exists v,
            extracted o r = Normal v /\ truthy v = true
            /\ Hoek_contain (Options.validVersions o) v = false
            /\ Options.invalidVersionErrorCode o < 400
            /\ e = "First argument must be a number (400+): "
                   ++ Z_to_string (Options.invalidVersionErrorCode o))
      \/ (exists v,
            extracted o r = Normal v
            /\ (truthy v = true
                /\ Hoek_contain (Options.validVersions o) v = true
                \/ truthy v = false
                   /\ Options.passiveMode o = false
                   /\ RequestPlugin.count (slot r) + 1 = ServerPlugin.count sp)
            /\ m (Request.method r)
                 (versioned o
                    (if truthy v then v
                     else VNum (Int (Options.defaultVersion o)))
                    (Request.path r))
               = Thrown e)).
Proof.
  split; [apply onRequest_throws|].
  intros [E [X|[(v & X & T & C & L & ->)|(v & X & G & M)]]].
  - rewrite (onRequest_examined sp m o r E), X. reflexivity.
  - rewrite (onRequest_invalid sp m o r v E X T C). unfold Boom_create.
    replace (400 <=? Options.invalidVersionErrorCode o) with false
      by (symmetry; apply Z.leb_gt; exact L).
    reflexivity.
  - destruct G as [[T C]|(T & P & N)].
    + rewrite (onRequest_valid sp m o r v E X T C). unfold route_lookup.
      rewrite T in M. now rewrite M.
    + rewrite (onRequest_no_version sp m o r v E X T), P.
      apply Z.eqb_eq in N. rewrite N. cbn [orb negb]. unfold route_lookup.
      rewrite T in M. now rewrite M.
Qed.

(** X7. A handler never rewrites without a route: whenever the URL
    changes, the router has answered with a route for the method and the
    version-qualified form of the path that the request had, the
    registered path of that route begins with the base path followed by
    [v], the version and [/], this version, an integer, is published in
    the slot, and the URL and the path of the request are what
    [request.setUrl] makes of the version-qualified form of the URL. *)
Theorem rewritten_request_has_route sp m o r r' rp :
  onRequest sp m o r = Normal (r', rp) ->
  rewrote r r' = true ->
  exists z route,
    published r' = Some (slot r')
    /\ RequestPlugin.apiVersion (slot r') = VNum (Int z)
    /\ m (Request.method r) (versioned o (VNum (Int z)) (Request.path r))
       = Normal (Some route)
    /\ startsWith (Route.path route)
         (Options.basePath o ++ "v" ++ Z_to_string z ++ "/") = true
    /\ Request.url r'
       = Url.path (Connection.parse (Request.connection r)
                     (versioned o (VNum (Int z)) (Request.url r)))
    /\ Request.path r'
       = Connection.normalize (Request.connection r)
           (Url.pathname (Connection.parse (Request.connection r)
                            (versioned o (VNum (Int z)) (Request.url r)))).
Proof.
  intros H W. apply onRequest_inversion in H.
  destruct H as [U|(z & ud & E & V & -> & ->)].
  - rewrite rewrote_same in W by exact U. discriminate.
  - exists z. unfold versioned_route_exists, route_lookup in V.
    destruct (m (Request.method r) (versioned o (VNum (Int z)) (Request.path r)))
      as [[route|]|e] eqn:M; try discriminate.
    exists route. repeat split. exact V.
Qed.

(** 'preserves query parameters after url-rewrite'. *)
Lemma rewritten_request_has_route_witness :
  exists z route,
    published
      (plain_request "get" accept_v2 "/v2/versioned?test=1"
         (Some (RequestPlugin.mk (VNum (Int 2)) false 1 (Some "mediatype"))))
    = Some (RequestPlugin.mk (VNum (Int 2)) false 1 (Some "mediatype"))
    /\ VNum (Int 2) = VNum (Int z)
    /\ Server.match_ mediatype_server "get" ("/" ++ "v" ++ Z_to_string z ++ "/versioned")
       = Normal (Some route)
    /\ startsWith (Route.path route) ("/" ++ "v" ++ Z_to_string z ++ "/") = true
    /\ "/v2/versioned?test=1"
       = "/" ++ "v" ++ Z_to_string z ++ "/versioned?test=1"
    /\ "/v2/versioned" = pathname ("/" ++ "v" ++ Z_to_string z ++ "/versioned?test=1").
Proof.
  apply (rewritten_request_has_route
           (server_slot mediatype_server) (Server.match_ mediatype_server)
           (instance 0 mediatype_server)
           (get_request "/versioned?test=1" accept_v2)
           (plain_request "get" accept_v2 "/v2/versioned?test=1"
              (Some (RequestPlugin.mk (VNum (Int 2)) false 1 (Some "mediatype"))))
           reply_continue).
  - reflexivity.
  - reflexivity.
Defined.

Lemma slice_last (b rest : string) (c : ascii) :
  slice (strlen (b ++ String c "") - 1) ((b ++ String c "") ++ rest)
  = String c rest.
Proof.
  rewrite strlen_append. unfold strlen at 2. cbn [String.length].
  replace (strlen b + Z.of_nat 1 - 1) with (strlen b) by lia.
  unfold slice. pose proof (strlen_nonneg b) as N.
  destruct (strlen b <? 0) eqn:L; [apply Z.ltb_lt in L; lia|].
  unfold strlen. rewrite Nat2Z.id. clear.
  induction b as [|a b IH]; [reflexivity|exact IH].
Qed.

(** X8. The version-qualified path repeats the last character of the base
    path after the version: for a path under the base path,
    [basePath + 'v' + version + path.slice(basePath.length - 1)] is the
    base path, [v], the version, the last character of the base path and
    the rest of the path. *)
Theorem versioned_keeps_last_character (o : Options.t) (v : jsval)
  (b rest : string) (c : ascii) :
  Options.basePath o = b ++ String c "" ->
  versioned o v (Options.basePath o ++ rest)
  = Options.basePath o ++ "v" ++ to_string v ++ String c rest.
Proof.
  intros B. unfold versioned. rewrite B, slice_last. reflexivity.
Qed.

Lemma versioned_keeps_last_character_witness :
  versioned (instance 0 multi_server) (VNum (Int 2)) "/api/versioned"
  = "/api/v2/versioned".
Proof.
  apply (versioned_keeps_last_character (instance 0 multi_server)
           (VNum (Int 2)) "/api" "versioned" "/").
  reflexivity.
Defined.

Lemma extracted_set_passiveMode b o r :
  Options.getVersion o = None ->
  extracted (set_passiveMode b o) r = extracted o r.
Proof.
  intros G. unfold extracted, requested_version.
  cbn [set_passiveMode Options.getVersion]. rewrite G. reflexivity.
Qed.

(** X9. For an instance on the media-type extractor, [passiveMode] has no
    effect on a request from which a truthy candidate is extracted: the
    handler returns the same result with the flag set or cleared. *)
Theorem passive_mode_irrelevant_with_version sp m o r b :
  Options.getVersion o = None ->
  (forall v, extracted o r = Normal v -> truthy v = true) ->
  onRequest sp m (set_passiveMode b o) r = onRequest sp m o r.
Proof.
  intros G T.
  destruct (examines o r) eqn:E.
  - rewrite (onRequest_examined sp m o r E).
    rewrite (onRequest_examined sp m (set_passiveMode b o) r E).
    rewrite extracted_set_passiveMode by exact G.
    destruct (extracted o r) as [v|e]; [|reflexivity].
    cbn [bind]. rewrite (T v eq_refl). cbn [negb]. rewrite !andb_false_r.
    reflexivity.
  - unfold examines in E. destruct (in_scope o r) eqn:S.
    + destruct (claimed r) eqn:C; [|discriminate].
      rewrite (onRequest_claimed sp m o r S C).
      apply onRequest_claimed; assumption.
    + rewrite (onRequest_out_of_scope sp m o r S).
      apply onRequest_out_of_scope; assumption.
Qed.

Lemma passive_mode_irrelevant_with_version_witness :
  onRequest (server_slot mediatype_server) (Server.match_ mediatype_server)
    (set_passiveMode true (instance 0 mediatype_server))
    (get_request "/versioned" accept_v2)
  = onRequest (server_slot mediatype_server) (Server.match_ mediatype_server)
      (instance 0 mediatype_server) (get_request "/versioned" accept_v2).
Proof.
  apply (passive_mode_irrelevant_with_version
           (server_slot mediatype_server) (Server.match_ mediatype_server)
           (instance 0 mediatype_server) (get_request "/versioned" accept_v2)
           true).
  - reflexivity.
  - intros v H. vm_compute in H. injection H as <-. reflexivity.
Defined.

Lemma validated_descriptor (raw : RawOptions.t) (o : Options.t) :
  Joi_validate raw = inr o ->
  Options.descriptor o <> "" /\ Options.descriptor o <> "default".
Proof.
  intros H. apply Joi_validate_inr in H. destruct H as [E ->].
  unfold optionsSchema_errors in E.
  apply app_eq_nil in E; destruct E as [_ E].
  apply app_eq_nil in E; destruct E as [_ E].
  apply app_eq_nil in E; destruct E as [_ E].
  apply app_eq_nil in E; destruct E as [_ E].
  apply app_eq_nil in E; destruct E as [D _].
  unfold descriptor_errors in D. cbn [optionsSchema_value Options.descriptor].
  destruct (RawOptions.descriptor raw) as [s|]; cbn [default].
  - destruct (s =? "")%string eqn:E1; [discriminate|].
    destruct (s =? "default")%string eqn:E2; [discriminate|].
    apply String.eqb_neq in E1, E2. split; assumption.
  - split; discriminate.
Qed.

Lemma published_attempt r p' :
  published (attempt r) = Some p' ->
  exists p, published r = Some p /\ p' = RequestPlugin.incr p.
Proof.
  unfold published, attempt, slot. cbn [Request.plugins Request.set_plugin].
  destruct (Request.plugins r) as [p|]; cbn [default].
  - cbn [RequestPlugin.incr RequestPlugin.descriptor].
    destruct (is_Some (RequestPlugin.descriptor p)); [|discriminate].
    intros H. injection H as <-. exists p. split; reflexivity.
  - cbn. discriminate.
Qed.

Lemma onRequest_published sp m o r r' rp p' :
  (exists raw, Joi_validate raw = inr o) ->
  onRequest sp m o r = Normal (r', rp) ->
  published r' = Some p' ->
  resolution_of o p'
  \/ exists p, published r = Some p
               /\ (forall o', resolution_of o' p -> resolution_of o' p').
Proof.
  intros [raw J] H P. apply onRequest_cases in H.
  destruct H as [(E & -> & _)|[(E & -> & _)|[(E & _ & v & X & T & C & V & ->)
    |(E & _ & _ & _ & _ & V & ->)]]].
  - right. exists p'. split; [exact P|]. intros o' R; exact R.
  - right. apply published_attempt in P. destruct P as (p & P & ->).
    exists p. split; [exact P|]. intros o' R. exact R.
  - left. apply Hoek_contain_In in C. destruct C as (z & -> & I).
    injection P as <-. exists z. cbn.
    repeat split; try assumption. discriminate.
  - left. injection P as <-. exists (Options.defaultVersion o). cbn.
    repeat split. eapply validated_default, J.
Qed.

(** X10. Whatever resolution a chain of validated instances publishes on
    a request that carried none, some instance of the chain stored it:
    [apiVersion] is an integer of the [validVersions] of that instance,
    its default version when [useDefault] is set, and the descriptor is
    ['default'] exactly when [useDefault] is set, the descriptor of the
    instance otherwise. *)
Theorem published_resolution sp m exts r r' rp p :
  (forall o, In o exts -> exists raw, Joi_validate raw = inr o) ->
  published r = None ->
  run_exts sp m exts r = Normal (r', rp) ->
  published r' = Some p ->
  exists o,
    In o exts /\ resolution_of o p
    /\ (RequestPlugin.useDefault p = true
        <-> RequestPlugin.descriptor p = Some "default").
Proof.
  intros J N H P.
  assert (G : exists o, In o exts /\ resolution_of o p).
  { assert (K : forall all, (forall o, In o exts -> In o all) ->
                (forall q, published r = Some q ->
                           exists o, In o all /\ resolution_of o q) ->
                exists o, In o all /\ resolution_of o p).
    { clear N. revert r H. induction exts as [|o exts IH]; intros r H all S Q.
      - injection H as <- <-. apply Q, P.
      - cbn [run_exts] in H.
        destruct (onRequest sp m o r) as [[r1 rp1]|e] eqn:O; cbn [bind] in H;
          [|discriminate].
        assert (Q1 : forall q, published r1 = Some q ->
                               exists o, In o all /\ resolution_of o q).
        { intros q Pq.
          destruct (onRequest_published sp m o r r1 rp1 q
                      (J o (or_introl eq_refl)) O Pq) as [R|(q0 & P0 & R)].
          - exists o. split; [apply S; left; reflexivity|exact R].
          - destruct (Q q0 P0) as (o' & I & R'). exists o'.
            split; [exact I|apply R, R']. }
        destruct rp1.
        + apply (IH (fun o' I => J o' (or_intror I)) r1 H all).
          * intros o' I. apply S. right. exact I.
          * exact Q1.
        + injection H as <- <-. apply Q1, P. }
    apply (K exts); [auto|]. intros q F. congruence. }
  destruct G as (o & I & R). exists o. split; [exact I|]. split; [exact R|].
  destruct R as (z & _ & _ & _ & D). rewrite D.
  destruct (J o I) as [raw Jo]. apply validated_descriptor in Jo.
  destruct (RequestPlugin.useDefault p); split; intros F;
    try reflexivity; try discriminate.
  injection F as F. destruct Jo as [_ Jo]. contradiction.
Qed.

(** Both indications: the resolution comes from the Accept header. *)
Lemma published_resolution_witness :
  exists o,
    In o (Server.onRequest_exts multi_server)
    /\ resolution_of o (RequestPlugin.mk (VNum (Int 2)) false 1 (Some "mediatype"))
    /\ (RequestPlugin.useDefault
          (RequestPlugin.mk (VNum (Int 2)) false 1 (Some "mediatype")) = true
        <-> RequestPlugin.descriptor
              (RequestPlugin.mk (VNum (Int 2)) false 1 (Some "mediatype"))
            = Some "default").
Proof.
  apply (published_resolution
           (server_slot multi_server) (Server.match_ multi_server)
           (Server.onRequest_exts multi_server) both_indications
           (plain_request "get" accept_v2 "/api/v2/versioned?version=1"
              (Some (RequestPlugin.mk (VNum (Int 2)) false 1 (Some "mediatype"))))
           reply_continue).
  - intros o [<-|[<-|[]]];
      [exists accept_api_raw|exists query_api_raw]; reflexivity.
  - reflexivity.
  - reflexivity.
  - reflexivity.
Defined.

(** X11. When a chain that has room for its attempts on the server count
    ends with an error reply, no handler before has rewritten the
    request: the URL is the one received, and nothing is published that
    was not there. *)
Theorem error_reply_leaves_url sp m exts r r' c msg :
  RequestPlugin.count (slot r) + Z.of_nat (List.length exts)
  <= ServerPlugin.count sp ->
  run_exts sp m exts r = Normal (r', reply_error c msg) ->
  Request.url r' = Request.url r
  /\ (published r = None -> published r' = None).
Proof.
  revert r. induction exts as [|o exts IH]; intros r B H; [discriminate|].
  cbn [run_exts] in H. cbn [List.length] in B. rewrite Nat2Z.inj_succ in B.
  destruct (onRequest sp m o r) as [[r1 rp1]|e] eqn:O; cbn [bind] in H;
    [|discriminate].
  pose proof (onRequest_cases sp m o r r1 rp1 O) as Cs.
  destruct Cs as [(E & -> & ->)|[(E & -> & U)|[(E & -> & v & X & T & C & V & ->)
    |(E & -> & P & N & _ & V & ->)]]].
  - apply IH; [lia|exact H].
  - destruct rp1.
    + apply IH in H; [|rewrite count_attempt; lia].
      destruct H as [H1 H2]. split; [rewrite H1; exact U|].
      intros Q. apply H2, attempt_published, Q.
    + injection H as <- _ _. split; [exact U|apply attempt_published].
  - destruct (claimed_is_final sp m exts _ (claimed_rewritten o v r T)) as [F _].
    rewrite F in H. discriminate.
  - destruct exts as [|o' exts]; [discriminate|].
    cbn [List.length] in B. lia.
Qed.

(** The Accept header is refused before the query parameter is read. *)
Lemma error_reply_leaves_url_witness :
  run_onRequest multi_server (get_request "/api/versioned?version=1" [("accept", "text/html")])
  = Normal (attempt (get_request "/api/versioned?version=1" [("accept", "text/html")]),
            reply_error 415 "Invalid api-version. Valid values: 1,2")
  /\ Request.url (attempt (get_request "/api/versioned?version=1" [("accept", "text/html")]))
     = "/api/versioned?version=1".
Proof.
  split; [reflexivity|].
  apply (error_reply_leaves_url
           (server_slot multi_server) (Server.match_ multi_server)
           (Server.onRequest_exts multi_server)
           (get_request "/api/versioned?version=1" [("accept", "text/html")])
           (attempt (get_request "/api/versioned?version=1" [("accept", "text/html")]))
           415 "Invalid api-version. Valid values: 1,2").
  - vm_compute. discriminate.
  - reflexivity.
Defined.

(** ** Instances with different base paths *)

Section Scoped.

Variable sp : ServerPlugin.t.
Variable m : string -> string -> completion (option Route.t).

Lemma filter_in_scope_attempt (exts : list Options.t) (r : Request.t) :
  filter (fun o => in_scope o (attempt r)) exts
  = filter (fun o => in_scope o r) exts.
Proof. reflexivity. Qed.

(** Instances that find no version, and are too few to reach the count of
    the server, only count themselves in; those out of scope do nothing. *)
Lemma deferring_chain_scoped (exts : list Options.t) (r : Request.t) :
  claimed r = false ->
  (forall o, In o exts -> in_scope o r = true -> no_version o r) ->
  RequestPlugin.count (slot r)
  + Z.of_nat (List.length (filter (fun o => in_scope o r) exts))
  < ServerPlugin.count sp ->
  run_exts sp m exts r
  = Normal (attempts (List.length (filter (fun o => in_scope o r) exts)) r,
            reply_continue).
Proof.
  revert r. induction exts as [|o exts IH]; intros r C A B; [reflexivity|].
  cbn [filter] in B |- *. cbn [run_exts].
  destruct (in_scope o r) eqn:S.
  - cbn [List.length] in B |- *.
    assert (X : examines o r = true) by (unfold examines; now rewrite S, C).
    destruct (A o (or_introl eq_refl) S (RequestPlugin.incr (slot r))) as [v [E T]].
    rewrite (onRequest_no_version sp m o r v X E T).
    replace (RequestPlugin.count (slot r) + 1 =? ServerPlugin.count sp) with false
      by (symmetry; apply Z.eqb_neq; lia).
    cbn [negb]. rewrite orb_true_r. cbn [bind attempts].
    rewrite <- (filter_in_scope_attempt exts r). apply IH.
    + exact C.
    + intros o' I S' p. exact (A o' (or_intror I) S' p).
    + rewrite count_attempt, filter_in_scope_attempt. lia.
  - rewrite (onRequest_out_of_scope sp m o r S). cbn [bind].
    apply IH.
    + exact C.
    + intros o' I. exact (A o' (or_intror I)).
    + exact B.
Qed.

End Scoped.

Lemma filter_length_lt {A : Type} (f : A -> bool) (l : list A) (a : A) :
  In a l -> f a = false -> (List.length (filter f l) < List.length l)%nat.
Proof.
  induction l as [|x l IH]; intros I F; [destruct I|].
  cbn [filter List.length]. pose proof (filter_length_le f l) as L.
  destruct I as [->|I].
  - rewrite F. lia.
  - specialize (IH I F). destruct (f x); cbn [List.length]; lia.
Qed.

(** X12. The default version is applied by the instance whose attempt
    count reaches the number of registered instances, and an instance out
    of scope does not count: on a fresh request that is out of the scope
    of one registered instance, and from which the others extract no
    version, the chain continues without rewriting and without
    publishing, the count staying below the number of instances. *)
Theorem default_needs_every_instance_in_scope sp m exts r o0 :
  ServerPlugin.count sp = Z.of_nat (List.length exts) ->
  Request.plugins r = None ->
  In o0 exts -> in_scope o0 r = false ->
  (forall o, In o exts -> in_scope o r = true -> no_version o r) ->
  exists r',
    run_exts sp m exts r = Normal (r', reply_continue)
    /\ Request.url r' = Request.url r
    /\ published r' = None
    /\ RequestPlugin.count (slot r')
       = Z.of_nat (List.length (filter (fun o => in_scope o r) exts))
    /\ RequestPlugin.count (slot r') < ServerPlugin.count sp.
Proof.
  intros C P I S N.
  pose proof (filter_length_lt (fun o => in_scope o r) exts o0 I S) as L.
  assert (K : RequestPlugin.count (slot r) = 0)
    by (unfold slot; rewrite P; reflexivity).
  exists (attempts (List.length (filter (fun o => in_scope o r) exts)) r).
  split.
  { apply deferring_chain_scoped.
    - unfold claimed, slot. rewrite P. reflexivity.
    - exact N.
    - rewrite K, C. lia. }
  split; [apply attempts_url|].
  split; [apply attempts_published, P|].
  rewrite attempts_count, K, C. lia.
Qed.

(** [/versioned] with the Accept instance under [/api/]: the route
    [/v1/versioned] exists, and the default is not applied. *)
Lemma default_needs_every_instance_in_scope_witness :
  exists r',
    run_onRequest split_paths_server (get_request "/versioned" [])
    = Normal (r', reply_continue)
    /\ Request.url r' = "/versioned"
    /\ published r' = None
    /\ RequestPlugin.count (slot r') = 1
    /\ RequestPlugin.count (slot r') < 2.
Proof.
  apply (default_needs_every_instance_in_scope
           (server_slot split_paths_server) (Server.match_ split_paths_server)
           (Server.onRequest_exts split_paths_server)
           (get_request "/versioned" []) (instance 0 split_paths_server)).
  - reflexivity.
  - reflexivity.
  - left. reflexivity.
  - reflexivity.
  - intros o [<-|[<-|[]]] S; [discriminate S|].
    intros p. exists VNull. split; reflexivity.
Defined.

(** ** The media-type extractor *)

Lemma regex_inversion (s : string) :
  subtype_regex_test s = true ->
  exists c token digits,
    s = "vnd" ++ String c (token ++ ".v" ++ digits)
    /\ token <> "" /\ string_forallb is_alnum token = true
    /\ digits <> "" /\ string_forallb is_digit digits = true.
Proof.
  intros H.
  destruct s as [|a1 s]; [discriminate|].
  destruct (Ascii.eqb_spec a1 "v") as [->|N1];
    [|destruct a1 as [[] [] [] [] [] [] [] []]; try discriminate;
      exfalso; apply N1; reflexivity].
  destruct s as [|a2 s]; [discriminate|].
  destruct (Ascii.eqb_spec a2 "n") as [->|N2];
    [|destruct a2 as [[] [] [] [] [] [] [] []]; try discriminate;
      exfalso; apply N2; reflexivity].
  destruct s as [|a3 s]; [discriminate|].
  destruct (Ascii.eqb_spec a3 "d") as [->|N3];
    [|destruct a3 as [[] [] [] [] [] [] [] []]; try discriminate;
      exfalso; apply N3; reflexivity].
  destruct s as [|c rest]; [discriminate|].
  cbn [subtype_regex_test] in H.
  apply andb_prop in H. destruct H as [_ H].
  pose proof (span_append is_alnum rest) as A.
  pose proof (span_fst_forallb is_alnum rest) as F.
  destruct (span is_alnum rest) as [token rest1]. cbn [fst snd] in A, F.
  apply andb_prop in H. destruct H as [T H].
  destruct rest1 as [|b1 rest1]; [discriminate|].
  destruct (Ascii.eqb_spec b1 ".") as [->|M1];
    [|destruct b1 as [[] [] [] [] [] [] [] []]; try discriminate;
      exfalso; apply M1; reflexivity].
  destruct rest1 as [|b2 digits]; [discriminate|].
  destruct (Ascii.eqb_spec b2 "v") as [->|M2];
    [|destruct b2 as [[] [] [] [] [] [] [] []]; try discriminate;
      exfalso; apply M2; reflexivity].
  apply andb_prop in H. destruct H as [D1 D2].
  exists c, token, digits. subst rest.
  split; [reflexivity|].
  split. { intros ->. discriminate. }
  split; [exact F|].
  split. { intros ->. discriminate. }
  exact D2.
Qed.

Lemma digit_value_nonneg (c : ascii) : is_digit c = true -> 0 <= digit_value c.
Proof.
  unfold is_digit, digit_value. intros H. apply andb_prop in H.
  destruct H as [H _]. apply N.leb_le in H. lia.
Qed.

Lemma digits_value_nonneg (s : string) (acc : Z) :
  0 <= acc -> 0 <= digits_value acc s.
Proof.
  revert acc. induction s as [|c s IH]; intros acc A; [exact A|].
  cbn [digits_value]. destruct (is_digit c) eqn:D; [|exact A].
  apply IH. pose proof (digit_value_nonneg c D). lia.
Qed.

Lemma lax_subtype_facets (c : ascii) (token digits : string) :
  c <> "."%char ->
  string_forallb is_alnum token = true ->
  string_forallb is_digit digits = true ->
  split "." ("vnd" ++ String c (token ++ ".v" ++ digits))
  = ["vnd" ++ String c token; "v" ++ digits].
Proof.
  intros C T D.
  change ("vnd" ++ String c (token ++ ".v" ++ digits))
    with ("vnd" ++ (String c "" ++ token ++ String "." ("v" ++ digits))).
  rewrite <- !append_assoc.
  rewrite split_at_separator.
  - rewrite split_no_separator; [reflexivity|].
    cbn [append string_forallb]. cbn.
    eapply forallb_impl; [|exact D].
    intros a Da. apply alnum_not_dot, digit_alnum, Da.
  - rewrite !forallb_append. cbn [string_forallb].
    apply Ascii.eqb_neq in C. rewrite C. cbn.
    eapply forallb_impl; [|exact T]. apply alnum_not_dot.
Qed.

Lemma version_facet_spec (digits : string) :
  digits <> "" -> string_forallb is_digit digits = true ->
  is_version_facet ("v" ++ digits) = true.
Proof.
  intros N D. cbn. rewrite D.
  destruct digits; [contradiction|reflexivity].
Qed.

Lemma Number_of_Z_not_NaN (z : Z) : Number_of_Z z <> NaN.
Proof.
  unfold Number_of_Z, to_double, dyadic.
  repeat match goal with
         | |- context [if ?b then _ else _] => destruct b
         | |- context [let (_, _) := ?p in _] => destruct p
         end; discriminate.
Qed.

(** With a vendor name that is not of the form [v<digits>] the extractor
    returns: [null], or a number, which is not [NaN]. *)
Lemma extractor_total (o : Options.t) (r : Request.t) :
  (forall s, Options.vendorName o = Some s -> is_version_facet s = false) ->
  _extractVersionFromAcceptHeader r o = Normal VNull
  \/ exists n, n <> NaN
               /\ _extractVersionFromAcceptHeader r o = Normal (VNum n).
Proof.
  intros V. unfold _extractVersionFromAcceptHeader.
  destruct (Request.header "accept" r) as [h|]; [|left; reflexivity].
  destruct (h =? "")%string; [left; reflexivity|]. right.
  destruct (MediaType.isValid (MediaType.fromString h)) eqn:I;
    [|exists (Int (-1)); split; [discriminate|reflexivity]].
  destruct (MediaType.subtype (MediaType.fromString h)) as [sub|] eqn:S.
  2:{ exists (Int (-1)). split; [discriminate|reflexivity]. }
  cbn [default andb].
  destruct (subtype_regex_test sub) eqn:R;
    [|exists (Int (-1)); split; [discriminate|reflexivity]].
  rewrite (fromString_facets h sub S).
  apply regex_inversion in R.
  destruct R as (c & token & digits & -> & T1 & T2 & D1 & D2).
  destruct (Ascii.eqb_spec c ".") as [->|C].
  - change ("vnd" ++ String "." (token ++ ".v" ++ digits))
      with ("vnd." ++ token ++ ".v" ++ digits).
    rewrite (versioned_subtype_facets token digits T2 D2).
    cbn [nth_error].
    destruct (negb (option_string_eqb (Some token) (Options.vendorName o)));
      [exists (Int (-1)); split; [discriminate|reflexivity]|].
    change (remove_first "v" ("v" ++ digits)) with digits.
    rewrite (parseInt_digits digits D1 D2).
    exists (Number_of_Z (digits_value 0 digits)).
    split; [apply Number_of_Z_not_NaN | reflexivity].
  - rewrite (lax_subtype_facets c token digits C T2 D2).
    cbn [nth_error].
    destruct (option_string_eqb (Some ("v" ++ digits)) (Options.vendorName o))
      eqn:E; cbn [negb]; [|exists (Int (-1)); split; [discriminate|reflexivity]].
    apply option_string_eqb_eq in E. symmetry in E. apply V in E.
    rewrite (version_facet_spec digits D1 D2) in E. discriminate.
Qed.

(** X13. An instance on the media-type extractor whose vendor name does
    not read [v<digits>], and whose status code is 400 or above, throws
    only when the router does: on every request the extractor returns
    [null] or a number that is not [NaN]; an error that the handler
    throws is one that the router has thrown for a version-qualified form
    of the path; and the handler returns when the router answers for
    these. *)
Theorem media_type_instance_throws_with_router_only sp m o r :
  Options.getVersion o = None ->
  (forall s, Options.vendorName o = Some s -> is_version_facet s = false) ->
  400 <= Options.invalidVersionErrorCode o ->
  (forall r0,
     _extractVersionFromAcceptHeader r0 o = Normal VNull
     \/ exists n, n <> NaN
          /\ _extractVersionFromAcceptHeader r0 o = Normal (VNum n))
  /\ (forall e,
        onRequest sp m o r = Thrown e ->
        exists v, m (Request.method r) (versioned o v (Request.path r)) = Thrown e)
  /\ ((forall v e,
         m (Request.method r) (versioned o v (Request.path r)) <> Thrown e) ->
      exists r' rp, onRequest sp m o r = Normal (r', rp)).
Proof.
  intros G V C.
  assert (T : forall e, onRequest sp m o r = Thrown e ->
                        exists v, m (Request.method r)
                                    (versioned o v (Request.path r)) = Thrown e).
  { intros e O. apply onRequest_throws in O.
    destruct O as [_ [X|[(v & _ & _ & _ & L & _)|(v & _ & _ & M)]]]; [|lia|].
    - unfold extracted, requested_version in X. rewrite G in X.
      destruct (extractor_total o (attempt r) V) as [N|(n & _ & N)]; congruence.
    - eexists. exact M. }
  split; [intros r0; apply extractor_total, V|]. split; [exact T|].
  intros A. destruct (onRequest sp m o r) as [[r' rp]|e] eqn:O;
    [exists r', rp; reflexivity|].
  destruct (T e eq_refl) as [v M]. destruct (A v e M).
Qed.

(** A subtype that the lax pattern accepts, with the vendor name of the
    test suite: the handler returns. *)
Lemma media_type_instance_throws_with_router_only_witness :
  exists r' rp,
    onRequest (server_slot mediatype_server) (Server.match_ mediatype_server)
      (instance 0 mediatype_server)
      (get_request "/versioned" [("accept", "application/vnd-v2.v2+json")])
    = Normal (r', rp).
Proof.
  apply (media_type_instance_throws_with_router_only
           (server_slot mediatype_server) (Server.match_ mediatype_server)
           (instance 0 mediatype_server)
           (get_request "/versioned" [("accept", "application/vnd-v2.v2+json")])).
  - reflexivity.
  - intros s H. vm_compute in H. injection H as <-. reflexivity.
  - vm_compute. discriminate.
  - intros v e. discriminate.
Defined.

(** ** The schema and registration *)

Lemma trim_end_idempotent (s : string) : trim_end (trim_end s) = trim_end s.
Proof.
  induction s as [|c s IH]; [reflexivity|].
  cbn [trim_end]. destruct (trim_end s) as [|d t] eqn:E.
  - destruct (is_whitespace c) eqn:W; [reflexivity|].
    cbn [trim_end]. rewrite W. reflexivity.
  - change (trim_end (String c (String d t))) with
      (match trim_end (String d t) with
       | "" => if is_whitespace c then "" else String c ""
       | String a s0 => String c (String a s0)
       end).
    rewrite IH. reflexivity.
Qed.

Lemma trim_start_head (s : string) (c : ascii) (t : string) :
  trim_start s = String c t -> is_whitespace c = false.
Proof.
  induction s as [|a s IH]; [discriminate|].
  cbn [trim_start]. destruct (is_whitespace a) eqn:W; [exact IH|].
  intros H. injection H as <- _. exact W.
Qed.

Lemma trim_end_head (c : ascii) (t : string) :
  is_whitespace c = false -> exists t', trim_end (String c t) = String c t'.
Proof.
  intros W. cbn [trim_end]. destruct (trim_end t) as [|d t'].
  - rewrite W. exists "". reflexivity.
  - exists (String d t'). reflexivity.
Qed.

Lemma trim_idempotent (s : string) : trim (trim s) = trim s.
Proof.
  unfold trim. destruct (trim_start s) as [|c t] eqn:E; [reflexivity|].
  pose proof (trim_start_head s c t E) as W.
  destruct (trim_end_head c t W) as [t' T].
  rewrite T at 1. cbn [trim_start]. rewrite W. rewrite <- T.
  apply trim_end_idempotent.
Qed.

Lemma array_indexOf_not_In (l : list string) (x : string) :
  (array_indexOf l x =? -1) = true <-> ~ In x l.
Proof.
  split.
  - intros H I. rewrite array_indexOf_In in H by exact I. discriminate.
  - unfold array_indexOf. generalize 0.
    induction l as [|y l IH]; intros i N; [reflexivity|].
    cbn [array_indexOf_from].
    destruct (y =? x)%string eqn:E.
    + apply String.eqb_eq in E. exfalso. apply N. left. exact E.
    + apply IH. intros I. apply N. right. exact I.
Qed.

(** X14. Options that passed validation: [validVersions] is not empty and
    holds [defaultVersion]; [basePath] and [vendorName] are trimmed and
    not empty; exactly one of [vendorName] and [getVersion] is there; the
    descriptor is neither empty nor ['default']; and the keys left out
    have their defaults: no passive mode, base path [/], descriptor
    ['mediatype'], status code 415. *)
Theorem validated_options_invariants (raw : RawOptions.t) (o : Options.t) :
  Joi_validate raw = inr o ->
  Options.validVersions o <> []
  /\ In (Options.defaultVersion o) (Options.validVersions o)
  /\ Options.basePath o <> "" /\ trim (Options.basePath o) = Options.basePath o
  /\ (forall s, Options.vendorName o = Some s -> s <> "" /\ trim s = s)
  /\ (Options.vendorName o = None <-> Options.getVersion o <> None)
  /\ Options.descriptor o <> "" /\ Options.descriptor o <> "default"
  /\ (RawOptions.passiveMode raw = None -> Options.passiveMode o = false)
  /\ (RawOptions.basePath raw = None -> Options.basePath o = "/")
  /\ (RawOptions.descriptor raw = None -> Options.descriptor o = "mediatype")
  /\ (RawOptions.invalidVersionErrorCode raw = None ->
      Options.invalidVersionErrorCode o = 415).
Proof.
  intros J.
  pose proof (validated_default raw o J) as D.
  pose proof (validated_basePath raw o J) as B.
  pose proof (validated_descriptor raw o J) as [D1 D2].
  apply Joi_validate_inr in J. destruct J as [E ->].
  apply schema_accepts in E.
  destruct E as ((items & d & V & NE & Df & I) & Bp & N & X & Ds & C & U).
  cbn [optionsSchema_value Options.validVersions Options.defaultVersion
       Options.basePath Options.vendorName Options.getVersion
       Options.descriptor Options.passiveMode Options.invalidVersionErrorCode]
    in *.
  split. { rewrite V. cbn [default]. rewrite integers_map. exact NE. }
  split; [exact D|]. split; [exact B|].
  split. { destruct (RawOptions.basePath raw) as [s|]; cbn;
             [apply trim_idempotent|reflexivity]. }
  split. { intros s S. destruct (RawOptions.vendorName raw) as [s0|];
             [|discriminate]. cbn in S. injection S as <-.
           split; [apply N; reflexivity|apply trim_idempotent]. }
  split. { destruct (RawOptions.vendorName raw); cbn;
             [|exact X]. split; [discriminate|].
           intros G. apply X in G. discriminate. }
  split; [exact D1|]. split; [exact D2|].
  split. { intros ->. reflexivity. }
  split. { intros ->. reflexivity. }
  split. { intros ->. reflexivity. }
  intros ->. reflexivity.
Qed.

Lemma validated_options_invariants_witness :
  In 1 [1; 2]
  /\ Options.basePath (instance 0 mediatype_server) = "/"
  /\ Options.descriptor (instance 0 mediatype_server) = "mediatype"
  /\ Options.invalidVersionErrorCode (instance 0 mediatype_server) = 415.
Proof.
  destruct (validated_options_invariants mediatype_raw
              (instance 0 mediatype_server) eq_refl)
    as (_ & D & _ & _ & _ & _ & _ & _ & _ & B & Ds & C).
  split; [exact D|]. split; [apply B; reflexivity|].
  split; [apply Ds; reflexivity|apply C; reflexivity].
Defined.

(** The three ways [register] returns. *)
Lemma register_cases (server : Server.t) (raw : RawOptions.t) :
  (exists errs, Joi_validate raw = inl errs
                /\ register server raw = (server, Some (ValidationError errs)))
  \/ (exists o, Joi_validate raw = inr o
                /\ In (Options.descriptor o)
                     (ServerPlugin.descriptors (server_slot server))
                /\ register server raw
                   = (Server.mk (Some (server_slot server)) (Server.match_ server)
                        (Server.onRequest_exts server),
                      Some (Error (duplicate_descriptor_message
                                     (Options.descriptor o)))))
  \/ (exists o, Joi_validate raw = inr o
                /\ ~ In (Options.descriptor o)
                       (ServerPlugin.descriptors (server_slot server))
                /\ register server raw
                   = (Server.mk
                        (Some (ServerPlugin.mk
                                 (ServerPlugin.count (server_slot server) + 1)
                                 (ServerPlugin.descriptors (server_slot server)
                                  ++ [Options.descriptor o])))
                        (Server.match_ server)
                        (Server.onRequest_exts server ++ [o]),
                      None)).
Proof.
  unfold register, server_slot.
  destruct (Joi_validate raw) as [errs|o].
  - left. exists errs. split; reflexivity.
  - right.
    destruct (array_indexOf
                (ServerPlugin.descriptors
                   (default ServerPlugin.initial (Server.plugins server)))
                (Options.descriptor o) =? -1) eqn:A; cbn [negb].
    + right. exists o. split; [reflexivity|].
      split; [apply array_indexOf_not_In, A|reflexivity].
    + left. exists o. split; [reflexivity|]. split; [|reflexivity].
      destruct (in_dec string_dec (Options.descriptor o)
                  (ServerPlugin.descriptors
                     (default ServerPlugin.initial (Server.plugins server))))
        as [I|N]; [exact I|].
      apply array_indexOf_not_In in N. congruence.
Qed.


Lemma register_well_registered (server : Server.t) (raw : RawOptions.t) :
  well_registered server -> well_registered (fst (register server raw)).
Proof.
  intros (C & D & N & V).
  destruct (register_cases server raw)
    as [(errs & _ & ->)|[(o & _ & _ & ->)|(o & J & I & ->)]]; cbn [fst].
  - repeat split; assumption.
  - repeat split; assumption.
  - unfold well_registered, server_slot.
    cbn [Server.plugins Server.onRequest_exts default ServerPlugin.count
         ServerPlugin.descriptors].
    fold (server_slot server).
    split. { rewrite length_app. cbn [List.length]. lia. }
    split. { rewrite map_app, D. reflexivity. }
    split. { apply NoDup_app; [exact N|repeat constructor; intros []|].
             intros d Id [<-|[]]. exact (I Id). }
    intros o' Io. apply in_app_or in Io. destruct Io as [Io|[<-|[]]].
    + apply V, Io.
    + exists raw. exact J.
Qed.

Lemma register_all_well_registered (raws : list RawOptions.t) (server : Server.t) :
  well_registered server -> well_registered (fst (register_all server raws)).
Proof.
  revert server. induction raws as [|raw raws IH]; intros server W; [exact W|].
  cbn [register_all].
  pose proof (register_well_registered server raw W) as W1.
  destruct (register server raw) as [server' [e|]]; cbn [fst] in *.
  - exact W1.
  - apply IH, W1.
Qed.

(** X16. Whatever is registered on a new server, and whether or not a
    registration is refused on the way, the server stays well registered:
    the count of the slot is the number of handlers, the descriptors of
    the slot are those of the handlers' options, in order and without
    repetition, and every handler runs on validated options. *)
Theorem registrations_keep_server_well_registered
  (m : string -> string -> completion (option Route.t)) (raws : list RawOptions.t) :
  well_registered (fst (register_all (Server.mk None m []) raws)).
Proof.
  apply register_all_well_registered.
  unfold well_registered, server_slot. cbn.
  repeat split; [constructor|intros o []].
Qed.

(** X17. When all registrations on a new server go through, the handlers
    are those of the converted options in the order of registration, with
    their descriptors in the slot and their number as its count. *)
Theorem handlers_follow_registration_order
  (m : string -> string -> completion (option Route.t)) (raws : list RawOptions.t) :
  snd (register_all (Server.mk None m []) raws) = None ->
  Server.onRequest_exts (fst (register_all (Server.mk None m []) raws))
  = map optionsSchema_value raws
  /\ ServerPlugin.descriptors
       (server_slot (fst (register_all (Server.mk None m []) raws)))
     = map (fun raw => default "mediatype" (RawOptions.descriptor raw)) raws
  /\ ServerPlugin.count
       (server_slot (fst (register_all (Server.mk None m []) raws)))
     = Z.of_nat (List.length raws).
Proof.
  assert (G : forall raws server,
            snd (register_all server raws) = None ->
            Server.onRequest_exts (fst (register_all server raws))
            = (Server.onRequest_exts server ++ map optionsSchema_value raws)%list
            /\ ServerPlugin.descriptors (server_slot (fst (register_all server raws)))
               = (ServerPlugin.descriptors (server_slot server)
                  ++ map (fun raw => default "mediatype" (RawOptions.descriptor raw))
                       raws)%list
            /\ ServerPlugin.count (server_slot (fst (register_all server raws)))
               = ServerPlugin.count (server_slot server)
                 + Z.of_nat (List.length raws)).
  { clear raws. induction raws as [|raw raws IH]; intros server H.
    - cbn [register_all fst map List.length]. rewrite !app_nil_r.
      repeat split. cbn. lia.
    - cbn [register_all] in H |- *.
      destruct (register_cases server raw)
        as [(errs & _ & R)|[(o & _ & _ & R)|(o & J & I & R)]];
        rewrite R in H |- *; try discriminate.
      destruct (IH _ H) as (A1 & A2 & A3).
      apply Joi_validate_inr in J. destruct J as [_ ->].
      split; [|split].
      * rewrite A1. cbn [Server.onRequest_exts map].
        rewrite <- app_assoc. reflexivity.
      * rewrite A2. unfold server_slot at 1.
        cbn [Server.plugins default ServerPlugin.descriptors map].
        rewrite <- app_assoc. reflexivity.
      * rewrite A3. unfold server_slot at 1.
        cbn [Server.plugins default ServerPlugin.count List.length].
        rewrite Nat2Z.inj_succ. lia. }
  intros H. destruct (G raws _ H) as (A1 & A2 & A3).
  rewrite A1, A2, A3. repeat split.
Qed.

Lemma handlers_follow_registration_order_witness :
  Server.onRequest_exts multi_server
  = map optionsSchema_value [accept_api_raw; query_api_raw]
  /\ ServerPlugin.descriptors (server_slot multi_server)
     = ["mediatype"; "querystring"]
  /\ ServerPlugin.count (server_slot multi_server) = 2.
Proof.
  apply (handlers_follow_registration_order
           (literal_match
              (map (Route.mk "get")
                 ["/unversioned"; "/api/v1/versioned"; "/api/v2/versioned"]))
           [accept_api_raw; query_api_raw]).
  reflexivity.
Defined.

(** X18. After a registration has gone through, a valid configuration
    with the same descriptor, given or left to its default, is refused
    with the duplicate-descriptor error, and the server is left as it
    was. *)
Theorem same_descriptor_is_refused (server : Server.t)
  (raw1 raw2 : RawOptions.t) (o2 : Options.t) :
  snd (register server raw1) = None ->
  Joi_validate raw2 = inr o2 ->
  default "mediatype" (RawOptions.descriptor raw2)
  = default "mediatype" (RawOptions.descriptor raw1) ->
  register (fst (register server raw1)) raw2
  = (fst (register server raw1),
     Some (Error (duplicate_descriptor_message (Options.descriptor o2)))).
Proof.
  intros H J2 D.
  destruct (register_cases server raw1)
    as [(errs & _ & R)|[(o & _ & _ & R)|(o1 & J1 & I & R)]];
    rewrite R in H; try discriminate.
  rewrite R. cbn [fst].
  assert (D1 : Options.descriptor o1 = Options.descriptor o2).
  { apply Joi_validate_inr in J1, J2. destruct J1 as [_ ->], J2 as [_ ->].
    cbn [optionsSchema_value Options.descriptor]. symmetry. exact D. }
  match goal with
  | |- register ?s _ = _ =>
      destruct (register_cases s raw2)
        as [(errs & F & _)|[(o & J & _ & R2)|(o & J & N & _)]]
  end.
  - congruence.
  - rewrite R2. assert (o = o2) by congruence. subst o. reflexivity.
  - assert (o = o2) by congruence. subst o. exfalso. apply N.
    unfold server_slot. cbn [Server.plugins default ServerPlugin.descriptors].
    apply in_or_app. right. left. exact D1.
Qed.

(** The second instance of the test suite's multiple registration on a
    server that already holds the default descriptor. *)
Lemma same_descriptor_is_refused_witness :
  register mediatype_server
    (with_getVersion query_getVersion (raw_options [1; 2] 1))
  = (mediatype_server,
     Some (Error (duplicate_descriptor_message "mediatype"))).
Proof.
  apply (same_descriptor_is_refused
           (new_server ["/unversioned"; "/v1/versioned"; "/v2/versioned"])
           mediatype_raw
           (with_getVersion query_getVersion (raw_options [1; 2] 1))
           (optionsSchema_value
              (with_getVersion query_getVersion (raw_options [1; 2] 1))));
    reflexivity.
Defined.

(** ** Callbacks of the test suite and of the README *)

(** X19. With the header callback of the test suite, a request that an
    instance examines and whose header [api-version] is not empty and
    holds no number is refused with the configured status code, when that
    code is 400 or above and [-1] is not a valid version. *)
Theorem header_callback_refuses_non_numeric sp m o r h :
  Options.getVersion o = Some header_getVersion ->
  examines o r = true ->
  Request.header "api-version" r = Some h -> h <> "" -> parseInt h = NaN ->
  ~ In (-1) (Options.validVersions o) ->
  400 <= Options.invalidVersionErrorCode o ->
  onRequest sp m o r
  = Normal (attempt r,
            reply_error (Options.invalidVersionErrorCode o)
              (invalid_version_message (Options.validVersions o))).
Proof.
  intros G E H N P V C.
  assert (X : extracted o r = Normal (VNum (Int (-1)))).
  { unfold extracted, requested_version. rewrite G. unfold header_getVersion.
    change (Request.header "api-version" (attempt r))
      with (Request.header "api-version" r).
    rewrite H. apply String.eqb_neq in N. rewrite N, P. reflexivity. }
  destruct (sentinel_invalid _ V) as [T F].
  apply (onRequest_invalid_status sp m o r _ E X T F C).
Qed.

(** 'returns a 415 when invalid api version is requested' ([asdf]). *)
Lemma header_callback_refuses_non_numeric_witness :
  onRequest (server_slot custom_server) (Server.match_ custom_server)
    (instance 0 custom_server)
    (get_request "/versioned" [("api-version", "asdf")])
  = Normal (attempt (get_request "/versioned" [("api-version", "asdf")]),
            reply_error 415 "Invalid api-version. Valid values: 1,2").
Proof.
  apply (header_callback_refuses_non_numeric
           (server_slot custom_server) (Server.match_ custom_server)
           (instance 0 custom_server)
           (get_request "/versioned" [("api-version", "asdf")]) "asdf").
  - reflexivity.
  - reflexivity.
  - reflexivity.
  - discriminate.
  - reflexivity.
  - simpl. intros [H|[H|[]]]; discriminate.
  - vm_compute. discriminate.
Defined.

Lemma query_callbacks_agree (r : Request.t) :
  query_getVersion r = readme_getVersion r
  \/ (query_getVersion r = Normal VNull
      /\ readme_getVersion r = Normal (VNum NaN)).
Proof.
  unfold query_getVersion, readme_getVersion.
  destruct (lookup "version" (Request.query r)) as [version|]; cbn [default].
  - destruct (version =? "")%string eqn:E.
    + apply String.eqb_eq in E. subst version. right. split; reflexivity.
    + left. reflexivity.
  - right. split; reflexivity.
Qed.

(** X20. The callback of the README, [parseInt(request.query.version, 10)],
    and the callback of the test suite, which returns [null] without a
    query parameter, cannot be told apart by the handler: whatever the
    other options and the request, it returns the same result with
    either. *)
Theorem query_callbacks_are_interchangeable sp m o r :
  onRequest sp m (set_getVersion query_getVersion o) r
  = onRequest sp m (set_getVersion readme_getVersion o) r.
Proof.
  destruct (examines o r) eqn:E.
  - rewrite (onRequest_examined sp m (set_getVersion query_getVersion o) r E).
    rewrite (onRequest_examined sp m (set_getVersion readme_getVersion o) r E).
    unfold extracted, requested_version. cbn [set_getVersion Options.getVersion].
    destruct (query_callbacks_agree (attempt r)) as [->|[-> ->]]; reflexivity.
  - unfold examines in E. destruct (in_scope o r) eqn:S.
    + destruct (claimed r) eqn:C; [|discriminate].
      rewrite !onRequest_claimed by assumption. reflexivity.
    + rewrite !onRequest_out_of_scope by assumption. reflexivity.
Qed.

(** ** Rewriting, when the router answers and the URL is as hapi reads it *)

(** X21. An instance examines a request and its extractor yields an
    integer [z] that is a member of [validVersions] and is not zero. The
    base path ends in [/], the path of the request is the base path and
    then [rest], the URL is the path and then the query part [s], and the
    connection takes the version-qualified URL as it is written. If the
    router finds a route for the version-qualified path, registered under
    the version-qualified prefix, the handler continues with the path
    rewritten to the version-qualified path, the query part kept, and the
    published resolution has [apiVersion = z], [useDefault = false], the
    attempt count and the descriptor of the instance. If the router
    answers without such a route, the handler continues with the URL and
    the path unchanged. If the router throws, so does the handler. *)
Theorem valid_version_is_routed sp m o r z b0 rest s :
  examines o r = true ->
  extracted o r = Normal (VNum (Int z)) ->
  In z (Options.validVersions o) ->
  z <> 0 ->
  Options.basePath o = b0 ++ "/" ->
  Request.path r = Options.basePath o ++ rest ->
  Request.url r = Request.path r ++ s ->
  taken_as_written (Request.connection r)
    (version_qualified (Options.basePath o) z rest) s ->
  (route_found m (Request.method r)
     (version_qualified (Options.basePath o) z rest)
     (version_prefix (Options.basePath o) z) = true ->
   exists r',
     onRequest sp m o r = Normal (r', reply_continue)
     /\ Request.path r' = version_qualified (Options.basePath o) z rest
     /\ Request.url r' = version_qualified (Options.basePath o) z rest ++ s
     /\ Request.plugins r'
        = Some (RequestPlugin.mk (VNum (Int z)) false
                  (RequestPlugin.count (slot r) + 1)
                  (Some (Options.descriptor o))))
  /\ (no_route_found m (Request.method r)
        (version_qualified (Options.basePath o) z rest)
        (version_prefix (Options.basePath o) z) = true ->
      exists r',
        onRequest sp m o r = Normal (r', reply_continue)
        /\ Request.url r' = Request.url r
        /\ Request.path r' = Request.path r)
  /\ (forall e,
        m (Request.method r) (version_qualified (Options.basePath o) z rest)
        = Thrown e ->
        onRequest sp m o r = Thrown e).
Proof.
  intros X E V Z B P U W.
  assert (T := truthy_Int z Z).
  assert (C : Hoek_contain (Options.validVersions o) (VNum (Int z)) = true).
  { apply Hoek_contain_In. now exists z. }
  pose proof (onRequest_valid sp m o r _ X E T C) as H.
  split; [|split].
  - intros R. rewrite (route_found_lookup m o r z b0 rest B P R) in H.
    exists (rewritten o (VNum (Int z)) false r). split; [exact H|].
    destruct (rewritten_taken_as_written o z false r b0 rest s B P U W) as [Q1 Q2].
    split; [exact Q1|]. split; [exact Q2 | reflexivity].
  - intros R. rewrite (no_route_found_lookup m o r z b0 rest B P R) in H.
    exists (attempt r). now repeat split.
  - intros e R. now rewrite (router_error_lookup m o r z b0 rest e B P R) in H.
Qed.

(** 'returns version 2 if accept header is valid'. *)
Lemma valid_version_is_routed_witness :
  exists r',
    onRequest (server_slot mediatype_server) (Server.match_ mediatype_server)
      (instance 0 mediatype_server) (get_request "/versioned" accept_v2)
    = Normal (r', reply_continue)
    /\ Request.path r' = "/v2/versioned"
    /\ Request.url r' = "/v2/versioned"
    /\ Request.plugins r'
       = Some (RequestPlugin.mk (VNum (Int 2)) false 1 (Some "mediatype")).
Proof.
  refine (proj1 (valid_version_is_routed
                   (server_slot mediatype_server) (Server.match_ mediatype_server)
                   (instance 0 mediatype_server)
                   (get_request "/versioned" accept_v2) 2 "" "versioned" ""
                   _ _ _ _ _ _ _ _) _);
    try reflexivity.
  - simpl. auto.
  - lia.
  - repeat split.
Defined.

(** X22. Whenever the handler of an instance with validated options
    changes the URL of a request whose URL is its path followed by the
    query part [s], under a base path that ends in [/] and on a connection
    that takes the version-qualified URLs as they are written: the new
    path is the base path, [v<version>/] for a valid version, and then
    what followed the base path in the old path, byte for byte, and the
    new URL is the new path followed by the same query part. *)
Theorem rewrite_preserves_query_and_suffix sp m raw o r r' rp b0 rest s :
  Joi_validate raw = inr o ->
  onRequest sp m o r = Normal (r', rp) ->
  Request.url r' <> Request.url r ->
  Options.basePath o = b0 ++ "/" ->
  Request.path r = Options.basePath o ++ rest ->
  Request.url r = Request.path r ++ s ->
  (forall z, In z (Options.validVersions o) ->
             taken_as_written (Request.connection r)
               (version_qualified (Options.basePath o) z rest) s) ->
  exists z,
    In z (Options.validVersions o)
    /\ Request.path r' = Options.basePath o ++ "v" ++ Z_to_string z ++ "/" ++ rest
    /\ Request.url r' = Request.path r' ++ s.
Proof.
  intros J H N B P U W. apply onRequest_cases in H.
  destruct H as [(_ & -> & _)|[(_ & -> & F)|[(_ & _ & v & _ & _ & C & _ & ->)
    |(_ & _ & _ & _ & _ & _ & ->)]]].
  - contradiction.
  - contradiction.
  - apply Hoek_contain_In in C as (z & -> & I). exists z. split; [exact I|].
    destruct (rewritten_taken_as_written o z false r b0 rest s B P U (W z I))
      as [Q1 Q2].
    split; [exact Q1 | now rewrite Q1].
  - pose proof (validated_default raw o J) as I.
    exists (Options.defaultVersion o). split; [exact I|].
    destruct (rewritten_taken_as_written o _ true r b0 rest s B P U (W _ I))
      as [Q1 Q2].
    split; [exact Q1 | now rewrite Q1].
Qed.

(** 'preserves query parameters after url-rewrite'. *)
Lemma rewrite_preserves_query_and_suffix_witness :
  exists z,
    In z [1; 2]
    /\ "/v1/versioned" = "/" ++ "v" ++ Z_to_string z ++ "/" ++ "versioned"
    /\ "/v1/versioned?test=1" = "/v1/versioned" ++ "?test=1".
Proof.
  refine (rewrite_preserves_query_and_suffix
            (server_slot mediatype_server) (Server.match_ mediatype_server)
            mediatype_raw (instance 0 mediatype_server)
            (get_request "/versioned?test=1" [])
            (plain_request "get" [] "/v1/versioned?test=1"
               (Some (RequestPlugin.mk (VNum (Int 1)) true 1 (Some "default"))))
            reply_continue "" "versioned" "?test=1" _ _ _ _ _ _ _);
    try reflexivity.
  - vm_compute. discriminate.
  - intros z [<-|[<-|[]]]; repeat split.
Defined.
